(** * Client-side transaction coordinator: [YBTransaction::Impl]

    A shallow embedding of [src/yb/client/transaction.cc].  The member
    functions of [YBTransaction::Impl] become computations in a small
    state / output / crash monad over the record [Impl] of its data members.
    Calls into the external collaborators (transaction manager, RPC registry,
    scheduler, meta cache, user callbacks) are recorded as [Action]s; their
    asynchronous replies come back as [Event]s.

    Every member function is run to completion: the model is the sequential
    behaviour of the coordinator, one entry point at a time, which is what the
    coordinator mutex serialises for the data it protects.

    The build modelled is the release build: a [DCHECK] compiles to nothing
    and [LOG(DFATAL)] writes a message and goes on.  [CHECK], a null pointer
    dereference and a call of an empty [std::function] end the run.  The
    test-only accessor [TEST_GetMetadata] is left out. *)

From stdpp Require Import gmap strings list fin_maps.

#[local] Set Warnings "-clear-no-such-hyp".

(** ** Data model *)

Abbreviation TabletId := string (only parsing).
Abbreviation TransactionId := N (only parsing).
(** [HybridTime] wraps a [uint64_t]. *)
Abbreviation HybridTime := N (only parsing).

(** [HybridTime::kInvalid] is the largest 64-bit value. *)
Definition kInvalid : HybridTime := 18446744073709551615%N.

(** The non-Ok codes of [yb::Status] that matter to the coordinator. *)
Inductive ErrorCode :=
| NotFound | IllegalState | TryAgain | Expired | TimedOut
| NetworkError | ServiceUnavailable | RuntimeError.

(** A [yb::Status]: [Status::OK()] or an error code with its message. *)
Inductive Status :=
| OK
| STATUS (code : ErrorCode) (msg : string).

Definition ok (s : Status) : bool :=
  match s with OK => true | STATUS _ _ => false end.

Definition IsTryAgain (s : Status) : bool :=
  match s with STATUS TryAgain _ => true | _ => false end.

Definition IsExpired (s : Status) : bool :=
  match s with STATUS Expired _ => true | _ => false end.

(** [Result<T>]: a value, or a status that is not Ok. *)
Inductive Result (T : Type) :=
| Success (v : T)
| Failure (code : ErrorCode) (msg : string).
Arguments Success {T} v.
Arguments Failure {T} code msg.

(** [YB_DEFINE_ENUM(TransactionState, (kRunning)(kAborted)(kCommitted))] *)
Inductive TransactionState := kRunning | kAborted | kCommitted.

(** The transaction status carried by an [UpdateTransaction] request. *)
Inductive TransactionStatus := CREATED | PENDING | COMMITTED | ABORTED.

Inductive IsolationLevel := SNAPSHOT_ISOLATION | SERIALIZABLE_ISOLATION.

Global Instance ErrorCode_eq_dec : EqDecision ErrorCode.
Proof. solve_decision. Defined.
Global Instance Status_eq_dec : EqDecision Status.
Proof. solve_decision. Defined.
Global Instance TransactionState_eq_dec : EqDecision TransactionState.
Proof. solve_decision. Defined.
Global Instance TransactionStatus_eq_dec : EqDecision TransactionStatus.
Proof. solve_decision. Defined.
Global Instance IsolationLevel_eq_dec : EqDecision IsolationLevel.
Proof. solve_decision. Defined.

Record TransactionMetadata := {
  transaction_id : TransactionId;
  isolation : IsolationLevel;
  status_tablet : TabletId;
  priority : N;
  start_time : HybridTime
}.

Definition with_transaction_id (id : TransactionId) (m : TransactionMetadata) :=
  {| transaction_id := id; isolation := isolation m;
     status_tablet := status_tablet m; priority := priority m;
     start_time := start_time m |}.

Definition with_status_tablet (t : TabletId) (m : TransactionMetadata) :=
  {| transaction_id := transaction_id m; isolation := isolation m;
     status_tablet := t; priority := priority m;
     start_time := start_time m |}.

(** [CreateMetadata]: the generated id and the random priority are inputs. *)
Definition CreateMetadata (id : TransactionId) (random : N)
    (isolation : IsolationLevel) (read_time : HybridTime) : TransactionMetadata :=
  {| transaction_id := id; isolation := isolation; status_tablet := "";
     priority := random; start_time := read_time |}.

(** Modelled from the spec: [ConsistentReadPoint] is declared outside the
    sources at hand.  Section 3 gives its contents: the read time, the
    per-shard local limits and the restart-required flag. *)
Record ConsistentReadPoint := {
  read_time : HybridTime;
  local_limits : gmap string N;
  restart_required : bool
}.

Definition IsRestartRequired (rp : ConsistentReadPoint) : bool :=
  restart_required rp.

(** [struct TabletState] *)
Record TabletState := { has_parameters : bool }.

(** [TabletState()] : [has_parameters = false]. *)
Definition TabletState_new : TabletState := {| has_parameters := false |}.

Record TransactionInvolvedTabletPB := {
  pb_tablet_id : TabletId;
  pb_has_parameters : bool
}.

Definition ToPB (id : TabletId) (t : TabletState) : TransactionInvolvedTabletPB :=
  {| pb_tablet_id := id; pb_has_parameters := has_parameters t |}.

(** [TabletState::MergeFromPB] *)
Definition MergeFromPB (t : TabletState) (source : TransactionInvolvedTabletPB)
    : TabletState :=
  {| has_parameters := has_parameters t || pb_has_parameters source |}.

(** Modelled from the spec: the read-point part of the child envelopes
    (section 6: [ChildTransactionData { metadata, read_time, local_limits }],
    [ChildTransactionResult { tablets, read_point_delta }]) with the delta
    holding what section 4.1 says is merged: local limits and the
    restart-required flag. *)
Record ChildTransactionDataPB := {
  data_metadata : TransactionMetadata;
  data_read_time : HybridTime;
  data_local_limits : gmap string N
}.

Record ChildTransactionResultPB := {
  tablets : list TransactionInvolvedTabletPB;
  result_local_limits : gmap string N;
  result_restart_required : bool
}.

(** Modelled from the spec: [ConsistentReadPoint::PrepareChildTransactionData]
    writes read_time and local_limits (section 4.4). *)
Definition PrepareChildTransactionData (rp : ConsistentReadPoint)
    (md : TransactionMetadata) : ChildTransactionDataPB :=
  {| data_metadata := md; data_read_time := read_time rp;
     data_local_limits := local_limits rp |}.

(** Modelled from the spec: [ConsistentReadPoint::ApplyChildTransactionResult]
    merges the child's updates: union of local_limits, restart_required ORs
    (section 4.1, ApplyChildResult).  On a shard both sides know, the parent's
    limit is kept, as [emplace] does in [ChildTransactionData::FromPB]. *)
Definition ApplyChildTransactionResult (rp : ConsistentReadPoint)
    (result : ChildTransactionResultPB) : ConsistentReadPoint :=
  {| read_time := read_time rp;
     local_limits := local_limits rp ∪ result_local_limits result;
     restart_required := restart_required rp || result_restart_required result |}.

(** [internal::RemoteTablet], of which only [tablet_id()] is used. *)
Record RemoteTablet := { tablet_id : TabletId }.

Record YBOperation := { succeeded : bool }.

(** [internal::InFlightOp].  [Prepare] has [DCHECK(op->tablet != nullptr)]:
    an op always carries its destination tablet. *)
Record InFlightOp := {
  tablet : RemoteTablet;
  yb_op : YBOperation
}.

Definition op_tablet_id (op : InFlightOp) : TabletId := tablet_id (tablet op).

(** User callbacks are opaque closures; they are told apart by an index. *)
Abbreviation CommitCallback := nat (only parsing).
Abbreviation PrepareChildCallback := nat (only parsing).

(** The closures stored in [waiters_]: the continuation handed to [Prepare]
    by the batcher, and the three [std::bind] objects made by [Commit],
    [Abort] and [PrepareChild]. *)
Inductive Waiter :=
| BatchWaiter (id : nat)
| BindDoCommit
| BindDoAbort
| BindDoPrepareChild (callback : PrepareChildCallback).

Inductive RpcHandle := heartbeat_handle_ | commit_handle_ | abort_handle_.

Record UpdateTransactionRequestPB := {
  req_tablet_id : TabletId;
  req_propagated_hybrid_time : HybridTime;
  req_transaction_id : TransactionId;
  req_status : TransactionStatus;
  req_tablets : list TabletId
}.

Record AbortTransactionRequestPB := {
  abort_tablet_id : TabletId;
  abort_propagated_hybrid_time : HybridTime;
  abort_transaction_id : TransactionId
}.

(** What the coordinator does to the outside world. *)
Inductive Action :=
| PickStatusTablet
| LookupTabletById (id : TabletId)
| UpdateTransaction (handle : RpcHandle) (req : UpdateTransactionRequestPB)
| AbortTransaction (req : AbortTransactionRequestPB)
| Unregister (handle : RpcHandle)
| UpdateClock (ht : HybridTime)
| Schedule (status : TransactionStatus) (delay_usec : N)
| RunWaiter (id : nat) (status : Status)
| RunCommitCallback (callback : CommitCallback) (status : Status)
| RunPrepareChildCallback (callback : PrepareChildCallback)
                          (data : Result ChildTransactionDataPB)
| LogDFatal (msg : string)
| LogWarning (msg : string).

(** What a member function reads from its surroundings when it runs: the
    manager's clock and the two gflags. *)
Record Env := {
  Now : HybridTime;
  FLAGS_transaction_heartbeat_usec : N;
  FLAGS_transaction_disable_heartbeat_in_tests : bool
}.

(** The data members of [YBTransaction::Impl]. *)
Record Impl := {
  metadata_ : TransactionMetadata;
  read_point_ : ConsistentReadPoint;
  requested_status_tablet_ : bool;
  status_tablet_ : option RemoteTablet;
  status_tablet_holder_ : option RemoteTablet;
  state_ : TransactionState;
  child_ : bool;
  ready_ : bool;
  commit_callback_ : option CommitCallback;
  error_ : Status;
  tablets_ : gmap string TabletState;
  waiters_ : list Waiter
}.

Definition set_metadata_ (v : TransactionMetadata) (s : Impl) : Impl :=
  {| metadata_ := v; read_point_ := read_point_ s;
     requested_status_tablet_ := requested_status_tablet_ s;
     status_tablet_ := status_tablet_ s;
     status_tablet_holder_ := status_tablet_holder_ s;
     state_ := state_ s; child_ := child_ s; ready_ := ready_ s;
     commit_callback_ := commit_callback_ s; error_ := error_ s;
     tablets_ := tablets_ s; waiters_ := waiters_ s |}.

Definition set_read_point_ (v : ConsistentReadPoint) (s : Impl) : Impl :=
  {| metadata_ := metadata_ s; read_point_ := v;
     requested_status_tablet_ := requested_status_tablet_ s;
     status_tablet_ := status_tablet_ s;
     status_tablet_holder_ := status_tablet_holder_ s;
     state_ := state_ s; child_ := child_ s; ready_ := ready_ s;
     commit_callback_ := commit_callback_ s; error_ := error_ s;
     tablets_ := tablets_ s; waiters_ := waiters_ s |}.

Definition set_requested_status_tablet_ (v : bool) (s : Impl) : Impl :=
  {| metadata_ := metadata_ s; read_point_ := read_point_ s;
     requested_status_tablet_ := v;
     status_tablet_ := status_tablet_ s;
     status_tablet_holder_ := status_tablet_holder_ s;
     state_ := state_ s; child_ := child_ s; ready_ := ready_ s;
     commit_callback_ := commit_callback_ s; error_ := error_ s;
     tablets_ := tablets_ s; waiters_ := waiters_ s |}.

Definition set_status_tablet_ (v : option RemoteTablet) (s : Impl) : Impl :=
  {| metadata_ := metadata_ s; read_point_ := read_point_ s;
     requested_status_tablet_ := requested_status_tablet_ s;
     status_tablet_ := v;
     status_tablet_holder_ := status_tablet_holder_ s;
     state_ := state_ s; child_ := child_ s; ready_ := ready_ s;
     commit_callback_ := commit_callback_ s; error_ := error_ s;
     tablets_ := tablets_ s; waiters_ := waiters_ s |}.

Definition set_status_tablet_holder_ (v : option RemoteTablet) (s : Impl) : Impl :=
  {| metadata_ := metadata_ s; read_point_ := read_point_ s;
     requested_status_tablet_ := requested_status_tablet_ s;
     status_tablet_ := status_tablet_ s;
     status_tablet_holder_ := v;
     state_ := state_ s; child_ := child_ s; ready_ := ready_ s;
     commit_callback_ := commit_callback_ s; error_ := error_ s;
     tablets_ := tablets_ s; waiters_ := waiters_ s |}.

Definition set_state_ (v : TransactionState) (s : Impl) : Impl :=
  {| metadata_ := metadata_ s; read_point_ := read_point_ s;
     requested_status_tablet_ := requested_status_tablet_ s;
     status_tablet_ := status_tablet_ s;
     status_tablet_holder_ := status_tablet_holder_ s;
     state_ := v; child_ := child_ s; ready_ := ready_ s;
     commit_callback_ := commit_callback_ s; error_ := error_ s;
     tablets_ := tablets_ s; waiters_ := waiters_ s |}.

Definition set_ready_ (v : bool) (s : Impl) : Impl :=
  {| metadata_ := metadata_ s; read_point_ := read_point_ s;
     requested_status_tablet_ := requested_status_tablet_ s;
     status_tablet_ := status_tablet_ s;
     status_tablet_holder_ := status_tablet_holder_ s;
     state_ := state_ s; child_ := child_ s; ready_ := v;
     commit_callback_ := commit_callback_ s; error_ := error_ s;
     tablets_ := tablets_ s; waiters_ := waiters_ s |}.

Definition set_commit_callback_ (v : option CommitCallback) (s : Impl) : Impl :=
  {| metadata_ := metadata_ s; read_point_ := read_point_ s;
     requested_status_tablet_ := requested_status_tablet_ s;
     status_tablet_ := status_tablet_ s;
     status_tablet_holder_ := status_tablet_holder_ s;
     state_ := state_ s; child_ := child_ s; ready_ := ready_ s;
     commit_callback_ := v; error_ := error_ s;
     tablets_ := tablets_ s; waiters_ := waiters_ s |}.

Definition set_error_ (v : Status) (s : Impl) : Impl :=
  {| metadata_ := metadata_ s; read_point_ := read_point_ s;
     requested_status_tablet_ := requested_status_tablet_ s;
     status_tablet_ := status_tablet_ s;
     status_tablet_holder_ := status_tablet_holder_ s;
     state_ := state_ s; child_ := child_ s; ready_ := ready_ s;
     commit_callback_ := commit_callback_ s; error_ := v;
     tablets_ := tablets_ s; waiters_ := waiters_ s |}.

Definition set_tablets_ (v : gmap string TabletState) (s : Impl) : Impl :=
  {| metadata_ := metadata_ s; read_point_ := read_point_ s;
     requested_status_tablet_ := requested_status_tablet_ s;
     status_tablet_ := status_tablet_ s;
     status_tablet_holder_ := status_tablet_holder_ s;
     state_ := state_ s; child_ := child_ s; ready_ := ready_ s;
     commit_callback_ := commit_callback_ s; error_ := error_ s;
     tablets_ := v; waiters_ := waiters_ s |}.

Definition set_waiters_ (v : list Waiter) (s : Impl) : Impl :=
  {| metadata_ := metadata_ s; read_point_ := read_point_ s;
     requested_status_tablet_ := requested_status_tablet_ s;
     status_tablet_ := status_tablet_ s;
     status_tablet_holder_ := status_tablet_holder_ s;
     state_ := state_ s; child_ := child_ s; ready_ := ready_ s;
     commit_callback_ := commit_callback_ s; error_ := error_ s;
     tablets_ := tablets_ s; waiters_ := v |}.

(** ** The monad of member functions *)

(** How a member function can bring the process down. *)
Inductive CrashReason :=
| CheckFailed (what : string)
| NullPointer (what : string)
| BadFunctionCall.

(** A run either finishes with a value, the new members and the actions it
    performed (in order), or crashes. *)
Inductive Outcome (A : Type) :=
| Done (a : A) (s : Impl) (out : list Action)
| Crash (why : CrashReason).
Arguments Done {A} a s out.
Arguments Crash {A} why.

Definition M (A : Type) : Type := Impl → Outcome A.

Global Instance M_ret : MRet M := λ A a s, Done a s [].

Global Instance M_bind : MBind M := λ A B f m s,
  match m s with
  | Done a s1 out1 =>
      match f a s1 with
      | Done b s2 out2 => Done b s2 (out1 ++ out2)
      | Crash why => Crash why
      end
  | Crash why => Crash why
  end.

Definition gets {A} (f : Impl → A) : M A := λ s, Done (f s) s [].
Definition modify (f : Impl → Impl) : M unit := λ s, Done () (f s) [].
Definition emit (a : Action) : M unit := λ s, Done () s [a].
Definition crash {A} (why : CrashReason) : M A := λ _, Crash why.

(** [for (const auto& x : l) f(x);] *)
Fixpoint for_each {A} (f : A → M unit) (l : list A) : M unit :=
  match l with
  | [] => mret ()
  | x :: rest => f x ;; for_each f rest
  end.

(** ** Member functions *)

(** [SetError]: the first error is kept, and aborts the transaction. *)
Definition SetError (status : Status) : M unit :=
  error ← gets error_;
  if ok error then
    modify (set_error_ status);;
    modify (set_state_ kAborted)
  else mret ().

(** [CheckRunning]: Ok while running; otherwise the recorded error, or
    IllegalState when there is none. *)
Definition CheckRunning : M Status :=
  state ← gets state_;
  if decide (state ≠ kRunning) then
    status ← gets error_;
    if ok status
    then mret (STATUS IllegalState "Transaction already completed")
    else mret status
  else mret OK.

(** [status_tablet_->...]: dereferencing the routing descriptor. *)
Definition deref_status_tablet_ : M RemoteTablet :=
  p ← gets status_tablet_;
  match p with
  | Some t => mret t
  | None => crash (NullPointer "status_tablet_")
  end.

(** [commit_callback_(status)]: calling an empty [std::function] throws. *)
Definition call_commit_callback_ (status : Status) : M unit :=
  cb ← gets commit_callback_;
  match cb with
  | Some callback => emit (RunCommitCallback callback status)
  | None => crash BadFunctionCall
  end.

Definition DoAbort (env : Env) (status : Status) : M unit :=
  if negb (ok status) then
    emit (LogWarning "Failed to abort transaction")
  else
    t ← deref_status_tablet_;
    md ← gets metadata_;
    emit (AbortTransaction
            {| abort_tablet_id := tablet_id t;
               abort_propagated_hybrid_time := Now env;
               abort_transaction_id := transaction_id md |}).

(** The keys of [tablets_] in the order the loop of [DoCommit] meets them
    (an [unordered_map] promises no particular order). *)
Definition tablet_ids (m : gmap string TabletState) : list TabletId :=
  (map_to_list m).*1.

Definition DoCommit (env : Env) (status : Status) : M unit :=
  if negb (ok status) then
    call_commit_callback_ status
  else
    participants ← gets tablets_;
    if decide (participants = ∅) then
      DoAbort env OK;;
      call_commit_callback_ OK
    else
      t ← deref_status_tablet_;
      md ← gets metadata_;
      emit (UpdateTransaction commit_handle_
              {| req_tablet_id := tablet_id t;
                 req_propagated_hybrid_time := Now env;
                 req_transaction_id := transaction_id md;
                 req_status := COMMITTED;
                 req_tablets := tablet_ids participants |}).

(** [DoPrepareChild]; the [parent_lock] argument only says who holds the
    mutex and has no counterpart here. *)
Definition DoPrepareChild (status : Status) (callback : PrepareChildCallback)
    : M unit :=
  match status with
  | STATUS c m => emit (RunPrepareChildCallback callback (Failure c m))
  | OK =>
      md ← gets metadata_;
      rp ← gets read_point_;
      emit (RunPrepareChildCallback callback
              (Success (PrepareChildTransactionData rp md)))
  end.

(** [waiter(status)] for each kind of stored closure. *)
Definition run_waiter (env : Env) (status : Status) (w : Waiter) : M unit :=
  match w with
  | BatchWaiter id => emit (RunWaiter id status)
  | BindDoCommit => DoCommit env status
  | BindDoAbort => DoAbort env status
  | BindDoPrepareChild callback => DoPrepareChild status callback
  end.

(** [HeartbeatDone] when [status.ok()]: the branch that [SendHeartbeat]
    enters directly under the test flag. *)
Definition HeartbeatDone_ok (env : Env) (propagated_hybrid_time : HybridTime)
    (transaction_status : TransactionStatus) : M unit :=
  emit (UpdateClock propagated_hybrid_time);;
  emit (Unregister heartbeat_handle_);;
  (if decide (transaction_status = CREATED) then
     waiters ← gets waiters_;
     modify (set_ready_ true);;
     modify (set_waiters_ []);;
     for_each (run_waiter env OK) waiters
   else mret ());;
  emit (Schedule PENDING (FLAGS_transaction_heartbeat_usec env)).

(** [SendHeartbeat]; [alive] is whether [weak_transaction.lock()] gives a
    transaction. *)
Definition SendHeartbeat (env : Env) (status : TransactionStatus) (alive : bool)
    : M unit :=
  state ← gets state_;
  if negb alive || bool_decide (state ≠ kRunning) then mret ()
  else if bool_decide (status ≠ CREATED)
          && FLAGS_transaction_disable_heartbeat_in_tests env then
    HeartbeatDone_ok env kInvalid status
  else
    t ← deref_status_tablet_;
    md ← gets metadata_;
    emit (UpdateTransaction heartbeat_handle_
            {| req_tablet_id := tablet_id t;
               req_propagated_hybrid_time := Now env;
               req_transaction_id := transaction_id md;
               req_status := status;
               req_tablets := [] |}).

Definition HeartbeatDone (env : Env) (status : Status)
    (propagated_hybrid_time : HybridTime)
    (transaction_status : TransactionStatus) : M unit :=
  if ok status then
    HeartbeatDone_ok env propagated_hybrid_time transaction_status
  else
    emit (UpdateClock propagated_hybrid_time);;
    emit (Unregister heartbeat_handle_);;
    emit (LogWarning "Send heartbeat failed");;
    if IsExpired status then SetError status
    else SendHeartbeat env transaction_status true.

(** [RequestStatusTablet]: the compare-exchange lets one caller through. *)
Definition RequestStatusTablet : M unit :=
  requested ← gets requested_status_tablet_;
  if (requested : bool) then mret ()
  else
    modify (set_requested_status_tablet_ true);;
    emit PickStatusTablet.

Definition StatusTabletPicked (picked : Result TabletId) : M unit :=
  match picked with
  | Success id => emit (LookupTabletById id)
  | Failure c m => SetError (STATUS c m)
  end.

(** [LookupTabletDone]: [status] is logged and not looked at again. *)
Definition LookupTabletDone (env : Env) (status : Status) : M unit :=
  holder ← gets status_tablet_holder_;
  modify (set_status_tablet_ holder);;
  modify (set_status_tablet_holder_ None);;
  t ← deref_status_tablet_;
  md ← gets metadata_;
  modify (set_metadata_ (with_status_tablet (tablet_id t) md));;
  SendHeartbeat env CREATED true.

(** The loop of [Prepare] over the ops, on the table and the flag
    [has_tablets_without_parameters]. *)
Fixpoint Prepare_loop (ops : list InFlightOp) (participants : gmap string TabletState)
    (has_tablets_without_parameters : bool) : gmap string TabletState * bool :=
  match ops with
  | [] => (participants, has_tablets_without_parameters)
  | op :: rest =>
      match participants !! op_tablet_id op with
      | None =>
          Prepare_loop rest (<[op_tablet_id op := TabletState_new]> participants) true
      | Some it =>
          Prepare_loop rest participants
            (if negb has_tablets_without_parameters
             then negb (has_parameters it)
             else has_tablets_without_parameters)
      end
  end.

(** [Prepare]: [ops] in the order the set is walked, the waiter, and the
    caller's metadata slot; the result is the return value and the slot. *)
Definition Prepare (ops : list InFlightOp) (waiter : Waiter)
    (metadata : TransactionMetadata) : M (bool * TransactionMetadata) :=
  ready ← gets ready_;
  if negb ready then
    waiters ← gets waiters_;
    modify (set_waiters_ (waiters ++ [waiter]));;
    RequestStatusTablet;;
    mret (false, metadata)
  else
    participants ← gets tablets_;
    let '(participants', has_tablets_without_parameters) :=
      Prepare_loop ops participants false in
    modify (set_tablets_ participants');;
    md ← gets metadata_;
    if has_tablets_without_parameters
    then mret (true, md)
    else mret (true, with_transaction_id (transaction_id md) metadata).

(** The loop of [Flushed].  [it] is the outer iterator, here the key it
    points at ([None] for [end()]); the lookup result is bound to a new
    inner [it], so the outer one is handed on as it is.  [None] as a result
    is the failed [CHECK]. *)
Fixpoint Flushed_loop (it : option TabletId) (ops : list InFlightOp)
    (participants : gmap string TabletState) : option (gmap string TabletState) :=
  match ops with
  | [] => Some participants
  | op :: rest =>
      if succeeded (yb_op op) then
        if match it with
           | None => true
           | Some first => bool_decide (first ≠ op_tablet_id op)
           end
        then
          match participants !! op_tablet_id op with
          | None => None
          | Some _ =>
              Flushed_loop it rest
                (<[op_tablet_id op := {| has_parameters := true |}]> participants)
          end
        else Flushed_loop it rest participants
      else Flushed_loop it rest participants
  end.

Definition Flushed (ops : list InFlightOp) (status : Status) : M unit :=
  if ok status then
    participants ← gets tablets_;
    match Flushed_loop None ops participants with
    | Some participants' => modify (set_tablets_ participants')
    | None => crash (CheckFailed "it != tablets_.end()")
    end
  else if IsTryAgain status then SetError status
  else mret ().

Definition Commit (env : Env) (callback : CommitCallback) : M unit :=
  status ← CheckRunning;
  if negb (ok status) then emit (RunCommitCallback callback status)
  else
    child ← gets child_;
    rp ← gets read_point_;
    if (child : bool) then
      emit (RunCommitCallback callback
              (STATUS IllegalState "Commit of child transaction is not allowed"))
    else if IsRestartRequired rp then
      emit (RunCommitCallback callback
              (STATUS IllegalState
                 "Commit of transaction that requires restart is not allowed"))
    else
      modify (set_state_ kCommitted);;
      modify (set_commit_callback_ (Some callback));;
      ready ← gets ready_;
      if negb ready then
        waiters ← gets waiters_;
        modify (set_waiters_ (waiters ++ [BindDoCommit]));;
        RequestStatusTablet
      else DoCommit env OK.

Definition Abort (env : Env) : M unit :=
  state ← gets state_;
  child ← gets child_;
  if bool_decide (state ≠ kRunning) then
    if bool_decide (state ≠ kAborted)
    then emit (LogDFatal "Abort of committed transaction")
    else mret ()
  else if (child : bool) then emit (LogDFatal "Abort of child transaction")
  else
    modify (set_state_ kAborted);;
    ready ← gets ready_;
    if negb ready then
      waiters ← gets waiters_;
      modify (set_waiters_ (waiters ++ [BindDoAbort]));;
      RequestStatusTablet
    else DoAbort env OK.

(** [SetupRestart], on the transaction being restarted; the result is the
    read point moved into [other], before [other] restarts it. *)
Definition SetupRestart (env : Env) : M (option ConsistentReadPoint) :=
  state ← gets state_;
  if bool_decide (state ≠ kRunning) then
    emit (LogDFatal "Restart of completed transaction");;
    mret None
  else
    rp ← gets read_point_;
    modify (set_state_ kAborted);;
    DoAbort env OK;;
    mret (Some rp).

Definition PrepareChild (callback : PrepareChildCallback) : M unit :=
  status ← CheckRunning;
  match status with
  | STATUS c m => emit (RunPrepareChildCallback callback (Failure c m))
  | OK =>
      rp ← gets read_point_;
      ready ← gets ready_;
      if IsRestartRequired rp then
        emit (RunPrepareChildCallback callback
                (Failure IllegalState "Restart required"))
      else if negb ready then
        waiters ← gets waiters_;
        modify (set_waiters_ (waiters ++ [BindDoPrepareChild callback]));;
        RequestStatusTablet
      else DoPrepareChild OK callback
  end.

(** Modelled from the spec: [ConsistentReadPoint::FinishChildTransactionResult]
    writes back the updates the child made (section 4.4): its local limits
    and its restart-required flag. *)
Definition FinishChildTransactionResult (rp : ConsistentReadPoint)
    (involved : list TransactionInvolvedTabletPB) : ChildTransactionResultPB :=
  {| tablets := involved;
     result_local_limits := local_limits rp;
     result_restart_required := restart_required rp |}.

Definition FinishChild : M (Result ChildTransactionResultPB) :=
  status ← CheckRunning;
  match status with
  | STATUS c m => mret (Failure c m)
  | OK =>
      child ← gets child_;
      if negb child then
        mret (Failure IllegalState "Finish child of non child transaction")
      else
        modify (set_state_ kCommitted);;
        participants ← gets tablets_;
        rp ← gets read_point_;
        mret (Success
                (FinishChildTransactionResult rp
                   (map (λ kv, ToPB kv.1 kv.2) (map_to_list participants))))
  end.

(** [tablets_[tablet.tablet_id()].MergeFromPB(tablet)]: [operator[]] makes a
    fresh [TabletState] for an unknown key. *)
Definition merge_tablet (participants : gmap string TabletState)
    (source : TransactionInvolvedTabletPB) : gmap string TabletState :=
  <[pb_tablet_id source :=
      MergeFromPB (default TabletState_new (participants !! pb_tablet_id source))
                  source]> participants.

Definition ApplyChildResult (result : ChildTransactionResultPB) : M Status :=
  status ← CheckRunning;
  if negb (ok status) then mret status
  else
    child ← gets child_;
    if (child : bool) then
      mret (STATUS IllegalState "Apply child result of child transaction")
    else
      participants ← gets tablets_;
      modify (set_tablets_ (foldl merge_tablet participants (tablets result)));;
      rp ← gets read_point_;
      modify (set_read_point_ (ApplyChildTransactionResult rp result));;
      mret OK.

Definition CommitDone (status : Status) (propagated_hybrid_time : HybridTime)
    : M unit :=
  emit (UpdateClock propagated_hybrid_time);;
  emit (Unregister commit_handle_);;
  call_commit_callback_ status.

(** [AbortDone]; the response is its optional propagated hybrid time. *)
Definition AbortDone (status : Status) (response : option HybridTime) : M unit :=
  match response with
  | Some ht => emit (UpdateClock ht)
  | None => mret ()
  end;;
  emit (Unregister abort_handle_).

(** ** Construction *)

(** Modelled from the spec: a [ConsistentReadPoint] before any read time is
    chosen, [SetCurrentReadTime] (samples the manager clock) and [SetReadTime]
    (child adoption), section 4.4. *)
Definition ConsistentReadPoint_new : ConsistentReadPoint :=
  {| read_time := kInvalid; local_limits := ∅; restart_required := false |}.

Definition SetCurrentReadTime (env : Env) (rp : ConsistentReadPoint)
    : ConsistentReadPoint :=
  {| read_time := Now env; local_limits := local_limits rp;
     restart_required := restart_required rp |}.

Definition SetReadTime (ht : HybridTime) (limits : gmap string N)
    (rp : ConsistentReadPoint) : ConsistentReadPoint :=
  {| read_time := ht; local_limits := limits;
     restart_required := restart_required rp |}.

(** [Impl(manager, transaction, isolation)] *)
Definition Impl_new (env : Env) (id : TransactionId) (random : N)
    (isolation : IsolationLevel) : Impl :=
  let rp :=
    if decide (isolation = SNAPSHOT_ISOLATION)
    then SetCurrentReadTime env ConsistentReadPoint_new
    else ConsistentReadPoint_new in
  {| metadata_ :=
       CreateMetadata id random isolation
         (if decide (isolation = SNAPSHOT_ISOLATION) then read_time rp else Now env);
     read_point_ := rp;
     requested_status_tablet_ := false;
     status_tablet_ := None;
     status_tablet_holder_ := None;
     state_ := kRunning;
     child_ := false;
     ready_ := false;
     commit_callback_ := None;
     error_ := OK;
     tablets_ := ∅;
     waiters_ := [] |}.

(** [Impl(manager, transaction, ChildTransactionData data)], with the three
    members of [data] as arguments. *)
Definition Impl_child (metadata : TransactionMetadata) (ht : HybridTime)
    (limits : gmap string N) : Impl :=
  {| metadata_ := metadata;
     read_point_ := SetReadTime ht limits ConsistentReadPoint_new;
     requested_status_tablet_ := false;
     status_tablet_ := None;
     status_tablet_holder_ := None;
     state_ := kRunning;
     child_ := true;
     ready_ := true;
     commit_callback_ := None;
     error_ := OK;
     tablets_ := ∅;
     waiters_ := [] |}.

(** ** Entry points as events *)

(** The calls a coordinator receives: the public operations of
    [YBTransaction], and the callbacks it handed to the manager, the meta
    cache, the scheduler and the RPC layer. *)
Inductive Event :=
| EvPrepare (ops : list InFlightOp) (waiter : nat) (metadata : TransactionMetadata)
| EvFlushed (ops : list InFlightOp) (status : Status)
| EvCommit (callback : CommitCallback)
| EvAbort
| EvCreateRestartedTransaction
| EvPrepareChild (callback : PrepareChildCallback)
| EvFinishChild
| EvApplyChildResult (result : ChildTransactionResultPB)
| EvReadPoint (rp : ConsistentReadPoint)
| EvStatusTabletPicked (picked : Result TabletId)
| EvLookupTabletDone (found : option RemoteTablet) (status : Status)
| EvSendHeartbeat (status : TransactionStatus) (alive : bool)
| EvHeartbeatDone (status : Status) (propagated_hybrid_time : HybridTime)
                  (transaction_status : TransactionStatus)
| EvCommitDone (status : Status) (propagated_hybrid_time : HybridTime)
| EvAbortDone (status : Status) (response : option HybridTime).

(** The meta cache fills [status_tablet_holder_] when it has found the
    tablet, before it runs [LookupTabletDone]. *)
Definition store_lookup_result (found : option RemoteTablet) : M unit :=
  match found with
  | Some t => modify (set_status_tablet_holder_ (Some t))
  | None => mret ()
  end.

(** [EvReadPoint] is a caller writing through the reference that
    [read_point()] returns. *)
Definition step (env : Env) (ev : Event) : M unit :=
  match ev with
  | EvPrepare ops waiter metadata =>
      Prepare ops (BatchWaiter waiter) metadata ;; mret ()
  | EvFlushed ops status => Flushed ops status
  | EvCommit callback => Commit env callback
  | EvAbort => Abort env
  | EvCreateRestartedTransaction => SetupRestart env ;; mret ()
  | EvPrepareChild callback => PrepareChild callback
  | EvFinishChild => FinishChild ;; mret ()
  | EvApplyChildResult result => ApplyChildResult result ;; mret ()
  | EvReadPoint rp => modify (set_read_point_ rp)
  | EvStatusTabletPicked picked => StatusTabletPicked picked
  | EvLookupTabletDone found status =>
      store_lookup_result found ;; LookupTabletDone env status
  | EvSendHeartbeat status alive => SendHeartbeat env status alive
  | EvHeartbeatDone status ht transaction_status =>
      HeartbeatDone env status ht transaction_status
  | EvCommitDone status ht => CommitDone status ht
  | EvAbortDone status response => AbortDone status response
  end.

(** A history: each call with the surroundings it ran in. *)
Definition run (history : list (Env * Event)) : M unit :=
  for_each (λ call, step call.1 call.2) history.

(** The states a coordinator can be in: those of a history that started at
    one of the two constructors. *)
Inductive reachable : Impl → Prop :=
| reachable_new env id random isolation :
    reachable (Impl_new env id random isolation)
| reachable_child metadata ht limits :
    reachable (Impl_child metadata ht limits)
| reachable_step env ev s s' out :
    reachable s → step env ev s = Done () s' out → reachable s'.

(** The state after each call of a history, [None] from a crash on. *)
Fixpoint states (history : list (Env * Event)) (s : Impl)
    : list (option TransactionState) :=
  match history with
  | [] => []
  | call :: rest =>
      match step call.1 call.2 s with
      | Done _ s' _ => Some (state_ s') :: states rest s'
      | Crash _ => [None]
      end
  end.

(** The ops that [Prepare] calls of a history admitted (those that returned
    [true], which is when the coordinator was ready). *)
Fixpoint admitted (history : list (Env * Event)) (s : Impl) : list InFlightOp :=
  match history with
  | [] => []
  | call :: rest =>
      match step call.1 call.2 s with
      | Done _ s' _ =>
          match call.2 with
          | EvPrepare ops waiter metadata =>
              match Prepare ops (BatchWaiter waiter) metadata s with
              | Done (true, _) _ _ => ops ++ admitted rest s'
              | _ => admitted rest s'
              end
          | _ => admitted rest s'
          end
      | Crash _ => []
      end
  end.

(** ** Sample values *)

Definition env0 : Env :=
  {| Now := 100; FLAGS_transaction_heartbeat_usec := 500000;
     FLAGS_transaction_disable_heartbeat_in_tests := false |}.

Definition env_test : Env :=
  {| Now := 100; FLAGS_transaction_heartbeat_usec := 500000;
     FLAGS_transaction_disable_heartbeat_in_tests := true |}.

Definition fresh : Impl := Impl_new env0 7 42 SNAPSHOT_ISOLATION.

Definition op_on (id : TabletId) (done : bool) : InFlightOp :=
  {| tablet := {| tablet_id := id |}; yb_op := {| succeeded := done |} |}.

Definition blank : TransactionMetadata :=
  {| transaction_id := 0; isolation := SNAPSHOT_ISOLATION; status_tablet := "";
     priority := 0; start_time := 0 |}.

(** The history that makes a fresh coordinator ready: a rejected [Prepare],
    the status tablet picked and looked up, the CREATED heartbeat
    acknowledged. *)
Definition become_ready : list (Env * Event) :=
  [ (env0, EvPrepare [op_on "A" false] 1 blank);
    (env0, EvStatusTabletPicked (Success "status"));
    (env0, EvLookupTabletDone (Some {| tablet_id := "status" |}) OK);
    (env0, EvHeartbeatDone OK 101 CREATED) ].

(** The members after a history, for histories that do not crash. *)
Definition after (history : list (Env * Event)) (s : Impl) : Impl :=
  match run history s with
  | Done _ s' _ => s'
  | Crash _ => s
  end.

Definition outputs (history : list (Env * Event)) (s : Impl) : list Action :=
  match run history s with
  | Done _ _ out => out
  | Crash _ => []
  end.

Definition ready0 : Impl := after become_ready fresh.

(** ** Properties of states and of pairs of states *)

(** The order in which [state_] is seen to move. *)
Definition state_le (a b : TransactionState) : Prop :=
  a = b ∨ a = kRunning ∨ (a = kCommitted ∧ b = kAborted).

(** A running transaction has no recorded error. *)
Definition error_free_while_running (s : Impl) : Prop :=
  state_ s = kRunning → error_ s = OK.

(** What a later state has in common with an earlier one. *)
Definition evolves (s s' : Impl) : Prop :=
  state_le (state_ s) (state_ s') ∧
  (error_ s' = error_ s ∨
   (error_ s = OK ∧ error_ s' ≠ OK ∧ state_ s' = kAborted)) ∧
  (state_ s = kCommitted → state_ s' = kAborted →
   error_ s = OK ∧ error_ s' ≠ OK) ∧
  dom (tablets_ s) ⊆ dom (tablets_ s') ∧
  child_ s' = child_ s.

(** A heartbeat request on the wire. *)
Definition is_heartbeat (a : Action) : bool :=
  match a with
  | UpdateTransaction heartbeat_handle_ _ => true
  | _ => false
  end.

(** A waiter being run, whatever its kind, seen from outside. *)
Definition waiter_action (status : Status) (w : nat) : Action := RunWaiter w status.

(** Some op of [ops] goes to [id] and succeeded. *)
Definition succeeded_on (ops : list InFlightOp) (id : TabletId) : Prop :=
  ∃ op, op ∈ ops ∧ op_tablet_id op = id ∧ succeeded (yb_op op) = true.

(** Some op of [ops] goes to a tablet that [participants] does not know or
    that has not been given the parameters. *)
Definition needs_metadata (participants : gmap string TabletState)
    (ops : list InFlightOp) : Prop :=
  ∃ op, op ∈ ops ∧
    (participants !! op_tablet_id op = None ∨
     participants !! op_tablet_id op = Some {| has_parameters := false |}).

(** A child result names the tablet [id]. *)
Definition mentions (l : list TransactionInvolvedTabletPB) (id : TabletId) : bool :=
  existsb (λ t, bool_decide (pb_tablet_id t = id)) l.

(** A child result says that [id] has the parameters. *)
Definition grants (l : list TransactionInvolvedTabletPB) (id : TabletId) : bool :=
  existsb (λ t, bool_decide (pb_tablet_id t = id) && pb_has_parameters t) l.

(** A sequence of observed states in which a state other than [kRunning]
    is never followed by a different one. *)
Fixpoint frozen_after_running (prev : TransactionState)
    (seen : list (option TransactionState)) : bool :=
  match seen with
  | Some next :: rest =>
      (bool_decide (prev = kRunning) || bool_decide (prev = next))
      && frozen_after_running next rest
  | _ => true
  end.

(** A commit is asked for before the coordinator is ready, and then no
    status tablet can be picked. *)
Definition commit_then_pick_fails : list (Env * Event) :=
  [ (env0, EvCommit 5);
    (env0, EvStatusTabletPicked (Failure TimedOut "no status tablet")) ].

(** A batch is postponed, and then no status tablet can be picked. *)
Definition prepare_then_pick_fails : list (Env * Event) :=
  [ (env0, EvPrepare [op_on "A" false] 1 blank);
    (env0, EvStatusTabletPicked (Failure TimedOut "no status tablet")) ].

(** A batch is postponed, a status tablet is picked, and its lookup fails
    ([found] is what the meta cache left in the holder). *)
Definition prepare_then_lookup_fails (found : option RemoteTablet)
    : list (Env * Event) :=
  [ (env0, EvPrepare [op_on "A" false] 1 blank);
    (env0, EvStatusTabletPicked (Success "status"));
    (env0, EvLookupTabletDone found (STATUS NotFound "tablet not found")) ].

(** Before the coordinator is ready a batch is postponed, a child is asked
    for and the transaction is committed; then the status tablet is resolved
    and the CREATED heartbeat acknowledged. *)
Definition three_waiters : list (Env * Event) :=
  [ (env0, EvPrepare [op_on "A" false] 1 blank);
    (env0, EvPrepareChild 2);
    (env0, EvCommit 3);
    (env0, EvStatusTabletPicked (Success "status"));
    (env0, EvLookupTabletDone (Some {| tablet_id := "status" |}) OK) ].

(** ** Restarting a transaction *)

(** [YBTransaction::CreateRestartedTransaction], seen from the transaction
    being restarted: [CreateSimilarTransaction] makes a transaction of the
    same isolation level ([id] and [random] are what it generates), and
    [SetupRestart] hands it the read point.  [ConsistentReadPoint::Restart]
    is not among the sources and is the argument [Restart].  The result is
    the new transaction. *)
Definition CreateRestartedTransaction
    (Restart : ConsistentReadPoint → ConsistentReadPoint)
    (env : Env) (id : TransactionId) (random : N) : M Impl :=
  md ← gets metadata_;
  moved ← SetupRestart env;
  mret (match moved with
        | Some rp => set_read_point_ (Restart rp) (Impl_new env id random (isolation md))
        | None => Impl_new env id random (isolation md)
        end).

(** ** More properties of states and outputs *)

(** A request to the manager to pick a status tablet. *)
Definition is_pick (a : Action) : bool :=
  match a with PickStatusTablet => true | _ => false end.

Definition picks (out : list Action) : nat := length (List.filter is_pick out).

Definition heartbeats (out : list Action) : nat :=
  length (List.filter is_heartbeat out).

(** What stays as it is, or only grows, from an earlier state to a later. *)
Definition keeps (s s' : Impl) : Prop :=
  transaction_id (metadata_ s') = transaction_id (metadata_ s) ∧
  isolation (metadata_ s') = isolation (metadata_ s) ∧
  priority (metadata_ s') = priority (metadata_ s) ∧
  start_time (metadata_ s') = start_time (metadata_ s) ∧
  (ready_ s = true → ready_ s' = true) ∧
  (requested_status_tablet_ s = true → requested_status_tablet_ s' = true).

(** What holds of every state a coordinator can be in. *)
Definition settled (s : Impl) : Prop :=
  (ready_ s = true → waiters_ s = []) ∧
  (error_ s ≠ OK → state_ s = kAborted) ∧
  (∀ t, status_tablet_ s = Some t → status_tablet (metadata_ s) = tablet_id t).

(** The entry a tablet has after a child's table has been merged into a
    parent's. *)
Definition merged_entry (parent child : gmap string TabletState) (id : TabletId)
    : option TabletState :=
  match child !! id with
  | Some c =>
      Some {| has_parameters :=
                has_parameters (default TabletState_new (parent !! id))
                || has_parameters c |}
  | None => parent !! id
  end.

(** Heartbeat completions, one for each status of [errors]. *)
Definition heartbeat_failures (env : Env) (ht : HybridTime)
    (ts : TransactionStatus) (errors : list Status) : list (Env * Event) :=
  (λ status, (env, EvHeartbeatDone status ht ts)) <$> errors.

(** A participant table with one informed and one uninformed tablet. *)
Definition two_tablets : gmap string TabletState :=
  {[ "A" := {| has_parameters := true |}; "B" := TabletState_new ]}.

(** A ready parent with participants, and a running child with its own. *)
Definition parent0 : Impl := set_tablets_ two_tablets ready0.

Definition child0 : Impl :=
  set_tablets_ {[ "B" := {| has_parameters := true |}; "C" := TabletState_new ]}
    (Impl_child (metadata_ ready0) 100 ∅).

(** A ready transaction whose read point asks for a restart. *)
Definition restart0 : Impl :=
  after (become_ready ++
         [(env0, EvReadPoint {| read_time := 100; local_limits := ∅;
                                restart_required := true |})]) fresh.

(** A transaction aborted by an expired heartbeat. *)
Definition expired0 : Impl :=
  after (become_ready ++
         [(env0, EvHeartbeatDone (STATUS Expired "transaction expired") 102 PENDING)])
        fresh.

(** A stand-in for [ConsistentReadPoint::Restart]: the flag is cleared and
    the read time moved on. *)
Definition restart_later (rp : ConsistentReadPoint) : ConsistentReadPoint :=
  {| read_time := read_time rp + 1; local_limits := local_limits rp;
     restart_required := false |}.

(** ** Running computations backwards *)

Lemma bind_Done {A B} (m : M A) (f : A → M B) s b s2 out :
  (m ≫= f) s = Done b s2 out →
  ∃ a s1 out1 out2,
    m s = Done a s1 out1 ∧ f a s1 = Done b s2 out2 ∧ out = out1 ++ out2.
Proof.
  unfold mbind, M_bind. destruct (m s) as [a s1 out1|]; [|discriminate].
  destruct (f a s1) as [b' s2' out2|] eqn:Hf; [|discriminate].
  intros [= -> -> <-]. eauto 10.
Qed.

Lemma ret_Done {A} (a : A) s b s' out :
  (mret a : M A) s = Done b s' out → b = a ∧ s' = s ∧ out = [].
Proof. unfold mret, M_ret. by intros [= -> -> <-]. Qed.

Lemma gets_Done {A} (f : Impl → A) s b s' out :
  gets f s = Done b s' out → b = f s ∧ s' = s ∧ out = [].
Proof. unfold gets. by intros [= <- <- <-]. Qed.

Lemma modify_Done f s b s' out :
  modify f s = Done b s' out → s' = f s ∧ out = [].
Proof. unfold modify. by intros [= <- <-]. Qed.

Lemma emit_Done a s b s' out :
  emit a s = Done b s' out → s' = s ∧ out = [a].
Proof. unfold emit. by intros [= <- <-]. Qed.

(** One step of taking a finished run apart. *)
Ltac undo1 :=
  match goal with
  | H : Crash _ = Done _ _ _ |- _ => discriminate H
  | H : crash _ _ = Done _ _ _ |- _ => discriminate H
  | H : Done _ _ _ = Done _ _ _ |- _ => injection H as ?; subst
  | H : @mbind _ _ _ _ _ _ _ = Done _ _ _ |- _ =>
      let H1 := fresh "Hrun" in
      apply bind_Done in H; destruct H as (?&?&?&?&H1&H&?)
  | H : @mret _ _ _ _ _ = Done _ _ _ |- _ => apply ret_Done in H; destruct H as (?&?&?)
  | H : gets _ _ = Done _ _ _ |- _ => apply gets_Done in H; destruct H as (?&?&?)
  | H : modify _ _ = Done _ _ _ |- _ => apply modify_Done in H; destruct H as (?&?)
  | H : emit _ _ = Done _ _ _ |- _ => apply emit_Done in H; destruct H as (?&?)
  | H : (if ?c then _ else _) _ = Done _ _ _ |- _ =>
      let E := fresh "Hif" in destruct c eqn:E
  | H : (match ?x with _ => _ end) _ = Done _ _ _ |- _ =>
      let E := fresh "Hcase" in destruct x eqn:E
  | H : (let '(_, _) := ?x in _) _ = Done _ _ _ |- _ =>
      let E := fresh "Hpair" in destruct x eqn:E
  end.

Ltac undo := repeat (undo1; subst; simpl in * ).

(** ** Member functions that leave the members alone *)

Ltac quiet := split; [done|]; simpl; by repeat constructor.

Lemma DoAbort_Done env status s u s' out :
  DoAbort env status s = Done u s' out →
  s' = s ∧ Forall (λ a, is_heartbeat a = false) out.
Proof.
  unfold DoAbort, deref_status_tablet_. intros H. undo; quiet.
Qed.

Lemma DoCommit_Done env status s u s' out :
  DoCommit env status s = Done u s' out →
  s' = s ∧ Forall (λ a, is_heartbeat a = false) out.
Proof.
  unfold DoCommit, DoAbort, call_commit_callback_, deref_status_tablet_.
  intros H. undo; quiet.
Qed.

Lemma DoPrepareChild_Done status callback s u s' out :
  DoPrepareChild status callback s = Done u s' out →
  s' = s ∧ Forall (λ a, is_heartbeat a = false) out.
Proof. unfold DoPrepareChild. intros H. undo; quiet. Qed.

Lemma run_waiter_Done env status w s u s' out :
  run_waiter env status w s = Done u s' out →
  s' = s ∧ Forall (λ a, is_heartbeat a = false) out.
Proof.
  destruct w; simpl; intros H.
  - undo. quiet.
  - by apply DoCommit_Done in H.
  - by apply DoAbort_Done in H.
  - by apply DoPrepareChild_Done in H.
Qed.

Lemma run_waiters_Done env status ws s u s' out :
  for_each (run_waiter env status) ws s = Done u s' out →
  s' = s ∧ Forall (λ a, is_heartbeat a = false) out.
Proof.
  revert s out. induction ws as [|w ws IH]; simpl; intros s out H.
  - undo. by split.
  - apply bind_Done in H as (?&s1&out1&out2&Hw&Hws&->).
    apply run_waiter_Done in Hw as (->&Hout).
    apply IH in Hws as (->&Hout'). split; [done|]. by apply Forall_app.
Qed.

(** Taking a run apart, the loop over the waiters included. *)
Ltac undo_all :=
  repeat (first
    [ match goal with
      | H : for_each (run_waiter _ _) _ _ = Done _ _ _ |- _ =>
          apply run_waiters_Done in H; destruct H as (?&?)
      end
    | undo1 ]; subst; simpl in * ).

Ltac unfold_members H :=
  unfold step, store_lookup_result, Prepare, Flushed, Commit, Abort,
    SetupRestart, PrepareChild, FinishChild, ApplyChildResult, CommitDone,
    AbortDone, LookupTabletDone, StatusTabletPicked, RequestStatusTablet,
    HeartbeatDone, SendHeartbeat, HeartbeatDone_ok, DoPrepareChild, DoCommit,
    DoAbort, call_commit_callback_, deref_status_tablet_, CheckRunning,
    SetError in H.

(** ** The loops over the participant table *)

Lemma Prepare_loop_sticky ops (m : gmap string TabletState) :
  (Prepare_loop ops m true).2 = true.
Proof.
  revert m. induction ops as [|op ops IH]; intros m; simpl; [done|].
  destruct (m !! op_tablet_id op); simpl; apply IH.
Qed.

Lemma Prepare_loop_lookup ops (m : gmap string TabletState) h k :
  (Prepare_loop ops m h).1 !! k =
    match m !! k with
    | Some t => Some t
    | None =>
        if bool_decide (k ∈ op_tablet_id <$> ops) then Some TabletState_new else None
    end.
Proof.
  revert m h. induction ops as [|op ops IH]; intros m h; simpl.
  - by destruct (m !! k).
  - destruct (m !! op_tablet_id op) as [it|] eqn:Hop; rewrite IH.
    + destruct (m !! k) eqn:Hk; [done|].
      assert (k ≠ op_tablet_id op) by congruence.
      apply option_eq. intros t. repeat case_bool_decide; set_solver.
    + destruct (decide (k = op_tablet_id op)) as [->|Hne].
      * rewrite lookup_insert_eq, Hop.
        rewrite bool_decide_eq_true_2; [done|set_solver].
      * rewrite lookup_insert_ne by done. destruct (m !! k); [done|].
        apply option_eq. intros t. repeat case_bool_decide; set_solver.
Qed.

Lemma Prepare_loop_dom ops (m : gmap string TabletState) h :
  dom m ⊆ dom (Prepare_loop ops m h).1.
Proof.
  intros k. rewrite !elem_of_dom, Prepare_loop_lookup.
  intros [t ->]. eauto.
Qed.

Lemma Prepare_loop_covers ops (m : gmap string TabletState) h op :
  op ∈ ops → op_tablet_id op ∈ dom (Prepare_loop ops m h).1.
Proof.
  intros Hop. rewrite elem_of_dom, Prepare_loop_lookup.
  destruct (m !! op_tablet_id op); [eauto|].
  rewrite bool_decide_eq_true_2; [eauto|]. by apply list_elem_of_fmap_2.
Qed.

Lemma Prepare_loop_flag ops (m : gmap string TabletState) h :
  (Prepare_loop ops m h).2 = true ↔ h = true ∨ needs_metadata m ops.
Proof.
  revert m h. induction ops as [|op ops IH]; intros m h; simpl.
  - split; [auto|]. intros [?|(op&Hop&_)]; [done|]. by apply elem_of_nil in Hop.
  - destruct (m !! op_tablet_id op) as [[p]|] eqn:Hop.
    + rewrite IH. unfold needs_metadata. split.
      * intros [Hh|(op'&Hin&Hop')].
        -- destruct h; [by left|]. simpl in Hh. right. exists op.
           split; [set_solver|]. right. rewrite Hop. by destruct p.
        -- right. exists op'. split; [set_solver|done].
      * intros [->|(op'&Hin&Hop')]; [by left|].
        apply elem_of_cons in Hin as [->|Hin].
        -- left. destruct Hop' as [Hop'|Hop']; rewrite Hop in Hop'; [done|].
           injection Hop' as ->. by destruct h.
        -- right. eauto.
    + split; [|intros _; apply Prepare_loop_sticky].
      intros _. right. exists op. split; [set_solver|by left].
Qed.

Lemma Flushed_loop_keeps ops (m m' : gmap string TabletState) k :
  Flushed_loop None ops m = Some m' →
  m !! k = Some {| has_parameters := true |} →
  m' !! k = Some {| has_parameters := true |}.
Proof.
  revert m. induction ops as [|op ops IH]; intros m; simpl.
  - by intros [= ->].
  - destruct (succeeded (yb_op op)); [|apply IH].
    destruct (m !! op_tablet_id op) eqn:Hop; [|done].
    intros Hrest Hk. apply (IH _ Hrest).
    destruct (decide (op_tablet_id op = k)) as [->|Hne].
    + by rewrite lookup_insert_eq.
    + by rewrite lookup_insert_ne.
Qed.

Lemma Flushed_loop_Some ops (m m' : gmap string TabletState) :
  Flushed_loop None ops m = Some m' →
  (∀ k, succeeded_on ops k → m' !! k = Some {| has_parameters := true |}) ∧
  (∀ k, ¬ succeeded_on ops k → m' !! k = m !! k) ∧
  dom m' = dom m.
Proof.
  revert m. induction ops as [|op ops IH]; intros m; simpl.
  - intros [= ->]. split; [|done].
    intros k (op&Hop&_). by apply elem_of_nil in Hop.
  - destruct (succeeded (yb_op op)) eqn:Hs.
    + destruct (m !! op_tablet_id op) as [t|] eqn:Hop; [|done].
      intros Hrest. destruct (IH _ Hrest) as (Hyes&Hno&Hdom). split_and!.
      * intros k (op'&Hin&Hid&Hs').
        apply elem_of_cons in Hin as [->|Hin].
        -- apply (Flushed_loop_keeps _ _ _ _ Hrest).
           rewrite <-Hid. by rewrite lookup_insert_eq.
        -- apply Hyes. by exists op'.
      * intros k Hk. rewrite Hno.
        -- apply lookup_insert_ne. intros <-. apply Hk.
           exists op. split_and!; [by left|done|done].
        -- intros (op'&Hin&Hid&Hs'). apply Hk. exists op'.
           split_and!; [by right|done|done].
      * rewrite Hdom, dom_insert_L.
        assert (op_tablet_id op ∈ dom m) by (apply elem_of_dom; eauto).
        set_solver.
    + intros Hrest. destruct (IH _ Hrest) as (Hyes&Hno&Hdom). split_and!.
      * intros k (op'&Hin&Hid&Hs').
        apply elem_of_cons in Hin as [->|Hin]; [congruence|].
        apply Hyes. by exists op'.
      * intros k Hk. apply Hno.
        intros (op'&Hin&Hid&Hs'). apply Hk. exists op'.
        split_and!; [by right|done|done].
      * done.
Qed.

Lemma Flushed_loop_total ops (m : gmap string TabletState) :
  (∀ op, op ∈ ops → succeeded (yb_op op) = true → op_tablet_id op ∈ dom m) →
  is_Some (Flushed_loop None ops m).
Proof.
  revert m. induction ops as [|op ops IH]; intros m Hin; simpl; [eauto|].
  destruct (succeeded (yb_op op)) eqn:Hs.
  - assert (op_tablet_id op ∈ dom m) as [t Ht]%elem_of_dom
      by (apply Hin; [by left|done]).
    rewrite Ht. apply IH. intros op' Hop' Hs'.
    rewrite dom_insert_L. apply elem_of_union_r, Hin; [by right|done].
  - apply IH. intros op' Hop' Hs'. apply Hin; [by right|done].
Qed.

Lemma grants_mentions l k : mentions l k = false → grants l k = false.
Proof.
  unfold mentions, grants. induction l as [|t l IH]; simpl; [done|].
  intros [-> Hl]%orb_false_elim. simpl. by apply IH.
Qed.

Lemma merge_tablets_lookup l (m : gmap string TabletState) k :
  foldl merge_tablet m l !! k =
    if mentions l k
    then Some {| has_parameters :=
                   has_parameters (default TabletState_new (m !! k)) || grants l k |}
    else m !! k.
Proof.
  revert m. induction l as [|t l IH]; intros m; simpl; [done|].
  rewrite IH. unfold merge_tablet.
  case_bool_decide as Hid; simpl.
  - subst k. rewrite lookup_insert_eq. simpl.
    destruct (mentions l (pb_tablet_id t)) eqn:Hm.
    + by rewrite orb_assoc.
    + by rewrite (grants_mentions _ _ Hm), orb_false_r.
  - by rewrite lookup_insert_ne by done.
Qed.

Lemma merge_tablets_idemp l (m : gmap string TabletState) :
  foldl merge_tablet (foldl merge_tablet m l) l = foldl merge_tablet m l.
Proof.
  apply map_eq. intros k. rewrite (merge_tablets_lookup l (foldl _ _ _)).
  rewrite merge_tablets_lookup. destruct (mentions l k); [|done].
  simpl. by rewrite <-orb_assoc, orb_diag.
Qed.

Lemma merge_tablets_dom l (m : gmap string TabletState) :
  dom m ⊆ dom (foldl merge_tablet m l).
Proof.
  intros k. rewrite !elem_of_dom, merge_tablets_lookup.
  destruct (mentions l k); eauto.
Qed.

Lemma read_point_merge_idemp rp result :
  ApplyChildTransactionResult (ApplyChildTransactionResult rp result) result =
  ApplyChildTransactionResult rp result.
Proof.
  unfold ApplyChildTransactionResult. simpl. f_equal.
  - by rewrite <-(assoc_L (∪)), (idemp_L (∪)).
  - by rewrite <-orb_assoc, orb_diag.
Qed.

(** ** How the members evolve *)

Global Instance state_le_preorder : PreOrder state_le.
Proof.
  split.
  - intros a. by left.
  - intros a b c. unfold state_le. destruct a, b, c; naive_solver.
Qed.

Global Instance evolves_preorder : PreOrder evolves.
Proof.
  split.
  - intros s. unfold evolves. split_and!; [by left|by left|congruence|done|done].
  - intros s1 s2 s3 (Hs&He&Hc&Hd&Hch) (Hs'&He'&Hc'&Hd'&Hch').
    unfold evolves. split_and!.
    + by etrans.
    + destruct He as [He|(E1&E2&A2)], He' as [He'|(E2'&E3&A3)].
      * left. congruence.
      * right. split_and!; congruence.
      * right. rewrite He'. split_and!; [done|done|].
        rewrite A2 in Hs'. destruct Hs' as [?|[?|[? ?]]]; congruence.
      * congruence.
    + intros H1 H3. destruct (state_ s2) eqn:H2.
      * rewrite H1 in Hs. destruct Hs as [?|[?|[? ?]]]; congruence.
      * destruct (Hc H1 eq_refl) as [E1 E2]. split; [done|].
        destruct He' as [->|(?&?&?)]; congruence.
      * destruct (Hc' eq_refl H3) as [E2 E3]. split; [|done].
        destruct He as [<-|(?&?&?)]; congruence.
    + set_solver.
    + congruence.
Qed.

Lemma evolves_error_free s s' :
  evolves s s' → error_free_while_running s → error_free_while_running s'.
Proof.
  unfold evolves, error_free_while_running, state_le.
  intros (Hs&He&_) Hinv Hrun. rewrite Hrun in *.
  destruct He as [->|?]; naive_solver.
Qed.

Ltac decided :=
  repeat match goal with
  | H : bool_decide _ = true |- _ => apply bool_decide_eq_true in H
  | H : bool_decide _ = false |- _ => apply bool_decide_eq_false in H
  | H : negb _ = true |- _ => apply negb_true_iff in H
  | H : negb _ = false |- _ => apply negb_false_iff in H
  | H : _ || _ = false |- _ => apply orb_false_elim in H; destruct H
  | H : _ && _ = true |- _ => apply andb_prop in H; destruct H
  | H : ¬ (_ ≠ _) |- _ => apply dec_stable in H
  end.

Ltac dom_now :=
  match goal with
  | Hp : Prepare_loop ?ops ?m ?h = (?g, _) |- dom ?m ⊆ dom ?g =>
      let Hd := fresh in
      pose proof (Prepare_loop_dom ops m h) as Hd; rewrite Hp in Hd; exact Hd
  | Hf : Flushed_loop None ?ops ?m = Some ?g |- dom ?m ⊆ dom ?g =>
      apply Flushed_loop_Some in Hf as (_&_&->); done
  end.

Ltac state_now :=
  repeat match goal with
  | H : decide _ = _ |- _ => clear H
  | H : IsTryAgain ?x = true |- _ =>
      destruct x as [|[] ?]; try discriminate H; clear H
  | H : IsExpired ?x = true |- _ =>
      destruct x as [|[] ?]; try discriminate H; clear H
  | H : ok ?x = false |- _ => destruct x; try discriminate H; clear H
  end;
  match goal with
  | s : Impl |- _ =>
      destruct (state_ s) eqn:?, (error_ s) eqn:?; simpl in *;
      intuition (try congruence; try discriminate)
  end.

Lemma step_evolves env ev s s' out :
  step env ev s = Done () s' out → evolves s s'.
Proof.
  intros H. destruct ev; unfold_members H; undo_all; try reflexivity.
  all: decided; unfold evolves, state_le; simpl.
  all: split_and!; try first [done | dom_now | apply merge_tablets_dom | state_now].
Qed.

Lemma run_evolves history s s' out :
  run history s = Done () s' out → evolves s s'.
Proof.
  revert s out. induction history as [|call history IH]; intros s out H.
  - apply ret_Done in H as (_&->&_). reflexivity.
  - unfold run in H. simpl in H.
    apply bind_Done in H as ([]&s1&out1&out2&Hstep&Hrest&->).
    etrans; [by eapply step_evolves|by eapply IH].
Qed.

Lemma reachable_error_free s : reachable s → error_free_while_running s.
Proof.
  induction 1 as [| |env ev s s' out _ IH Hstep]; [done|done|].
  eapply evolves_error_free; [by eapply step_evolves|done].
Qed.

Lemma evolves_not_running s s' :
  evolves s s' → state_ s ≠ kRunning → state_ s' ≠ kRunning.
Proof.
  intros (Hs&_) Hne Hrun. unfold state_le in Hs. rewrite Hrun in Hs.
  destruct Hs as [?|[?|[? ?]]]; congruence.
Qed.

(** Once the transaction has left [kRunning], no call puts a heartbeat on
    the wire. *)
Lemma step_no_heartbeat env ev s s' out :
  step env ev s = Done () s' out → state_ s ≠ kRunning →
  Forall (λ a, is_heartbeat a = false) out.
Proof.
  intros H Hne. destruct ev; unfold_members H; undo_all; decided;
    try congruence;
    repeat first [ done | apply Forall_app; split | constructor ].
Qed.

Lemma run_no_heartbeat history s s' out :
  run history s = Done () s' out → state_ s ≠ kRunning →
  Forall (λ a, is_heartbeat a = false) out.
Proof.
  revert s out. induction history as [|call history IH]; intros s out H Hne.
  - apply ret_Done in H as (_&_&->). constructor.
  - unfold run in H. simpl in H.
    apply bind_Done in H as ([]&s1&out1&out2&Hstep&Hrest&->).
    apply Forall_app. split; [by eapply step_no_heartbeat|].
    eapply IH; [done|]. eapply evolves_not_running; [|done].
    by eapply step_evolves.
Qed.

(** ** Prepare and Flushed *)

Lemma Prepare_ready ops waiter metadata s :
  ready_ s = true →
  Prepare ops waiter metadata s =
    Done (true,
          if (Prepare_loop ops (tablets_ s) false).2
          then metadata_ s
          else with_transaction_id (transaction_id (metadata_ s)) metadata)
         (set_tablets_ (Prepare_loop ops (tablets_ s) false).1 s) [].
Proof.
  intros Hready. unfold Prepare, mbind, M_bind, gets. rewrite Hready. simpl.
  destruct (Prepare_loop ops (tablets_ s) false) as [g []]; done.
Qed.

Lemma Prepare_not_ready ops waiter metadata s :
  ready_ s = false →
  Prepare ops waiter metadata s =
    Done (false, metadata)
         (set_requested_status_tablet_ true
            (set_waiters_ (waiters_ s ++ [waiter]) s))
         (if requested_status_tablet_ s then [] else [PickStatusTablet])
  ∨ (requested_status_tablet_ s = true ∧
     Prepare ops waiter metadata s =
       Done (false, metadata) (set_waiters_ (waiters_ s ++ [waiter]) s) []).
Proof.
  intros Hready.
  unfold Prepare, RequestStatusTablet, mbind, M_bind, gets, modify, emit.
  rewrite Hready. simpl.
  destruct (requested_status_tablet_ s) eqn:Hreq; simpl; [by right|by left].
Qed.

Lemma Prepare_true_covers ops waiter metadata s slot s' out :
  Prepare ops waiter metadata s = Done (true, slot) s' out →
  ∀ op, op ∈ ops → op_tablet_id op ∈ dom (tablets_ s').
Proof.
  intros H op Hop. destruct (ready_ s) eqn:Hready.
  - rewrite Prepare_ready in H by done. injection H as _ <- _. simpl.
    by apply Prepare_loop_covers.
  - destruct (Prepare_not_ready ops waiter metadata s Hready) as [E|[_ E]];
      rewrite E in H; discriminate.
Qed.

(** C4: [Prepare] returns [ready_].  When that is [false] the waiter has been
    appended to [waiters_] and [RequestStatusTablet] has run (the manager is
    asked to pick a status tablet unless it had been asked before).  When it
    is [true], every tablet of [ops] is in [tablets_] afterwards, and the
    metadata slot holds the whole of [metadata_] when some op goes to a tablet
    that was absent or had [has_parameters = false], and otherwise is the
    caller's slot with only [transaction_id] overwritten. *)
Theorem C4_prepare ops waiter metadata s :
  ∃ slot s' out,
    Prepare ops waiter metadata s = Done (ready_ s, slot) s' out ∧
    if ready_ s then
      (∀ op, op ∈ ops → op_tablet_id op ∈ dom (tablets_ s')) ∧
      (needs_metadata (tablets_ s) ops → slot = metadata_ s) ∧
      (¬ needs_metadata (tablets_ s) ops →
       slot = with_transaction_id (transaction_id (metadata_ s)) metadata) ∧
      waiters_ s' = waiters_ s ∧ out = []
    else
      slot = metadata ∧
      waiters_ s' = waiters_ s ++ [waiter] ∧
      tablets_ s' = tablets_ s ∧
      requested_status_tablet_ s' = true ∧
      out = if requested_status_tablet_ s then [] else [PickStatusTablet].
Proof.
  destruct (ready_ s) eqn:Hready.
  - do 3 eexists. split; [by apply Prepare_ready|]. simpl.
    pose proof (Prepare_loop_flag ops (tablets_ s) false) as Hflag.
    split_and!; try done.
    + intros op Hop. by apply Prepare_loop_covers.
    + intros Hneed. destruct (Prepare_loop _ _ _).2; [done|].
      assert (false = true) by (apply Hflag; by right). done.
    + intros Hneed. destruct (Prepare_loop _ _ _).2; [|done].
      destruct Hflag as [Hflag _]. destruct (Hflag eq_refl); done.
  - destruct (Prepare_not_ready ops waiter metadata s Hready) as [E|[Hreq E]];
      do 3 eexists; (split; [exact E|]); simpl; [done|].
    by rewrite Hreq.
Qed.

(** C5: after [Flushed(ops, Status::OK())] has returned, every tablet with a
    succeeded op of [ops] has [has_parameters = true], and the entry (or
    absence) of every other tablet is as before. *)
Theorem C5_flushed_marks ops s s' out :
  Flushed ops OK s = Done () s' out →
  (∀ id, succeeded_on ops id →
         tablets_ s' !! id = Some {| has_parameters := true |}) ∧
  (∀ id, ¬ succeeded_on ops id → tablets_ s' !! id = tablets_ s !! id).
Proof.
  intros H. unfold Flushed in H. simpl in H. undo.
  apply Flushed_loop_Some in Hcase as (Hyes&Hno&_). by split.
Qed.

Lemma C5_flushed_marks_witness :
  (∀ id, succeeded_on [op_on "A" true; op_on "B" false] id →
     tablets_ (set_tablets_ {["A" := {| has_parameters := true |};
                              "B" := TabletState_new]} ready0) !! id
     = Some {| has_parameters := true |}) ∧
  (∀ id, ¬ succeeded_on [op_on "A" true; op_on "B" false] id →
     tablets_ (set_tablets_ {["A" := {| has_parameters := true |};
                              "B" := TabletState_new]} ready0) !! id
     = tablets_ (set_tablets_ {["A" := TabletState_new;
                                "B" := TabletState_new]} ready0) !! id).
Proof.
  apply (C5_flushed_marks [op_on "A" true; op_on "B" false]
           (set_tablets_ {["A" := TabletState_new; "B" := TabletState_new]} ready0)
           _ []).
  vm_compute. reflexivity.
Defined.

(** ** Admitted ops stay in the table *)

Lemma admitted_in_dom history s s' out :
  run history s = Done () s' out →
  ∀ op, op ∈ admitted history s → op_tablet_id op ∈ dom (tablets_ s').
Proof.
  revert s out. induction history as [|[env ev] history IH]; intros s out H op.
  - simpl. by intros ?%elem_of_nil.
  - unfold run in H. simpl in H.
    apply bind_Done in H as ([]&s1&out1&out2&Hstep&Hrest&->).
    simpl. rewrite Hstep.
    assert (op ∈ admitted history s1 → op_tablet_id op ∈ dom (tablets_ s'))
      as Hlater by (by eapply IH).
    destruct ev; try done.
    destruct (Prepare ops (BatchWaiter waiter) metadata s)
      as [[[] slot] s2 out2'|] eqn:HP; try done.
    intros [Hop|Hop]%elem_of_app; [|by apply Hlater].
    simpl in Hstep. apply bind_Done in Hstep as (?&?&?&?&HP'&Hret&_).
    rewrite HP in HP'. injection HP' as <- <- <-.
    apply ret_Done in Hret as (_&->&_).
    apply run_evolves in Hrest as (_&_&_&Hdom&_). apply Hdom.
    by eapply Prepare_true_covers.
Qed.

(** C10: when every op of the batch was admitted by a [Prepare] call of the
    history that returned [true], [Flushed] with an Ok status passes its
    [CHECK]: it returns. *)
Theorem C10_flushed_check_holds history s0 s out ops :
  run history s0 = Done () s out →
  (∀ op, op ∈ ops → op ∈ admitted history s0) →
  ∃ s', Flushed ops OK s = Done () s' [].
Proof.
  intros Hrun Hadm.
  destruct (Flushed_loop_total ops (tablets_ s)) as [g Hg].
  { intros op Hop _. eapply admitted_in_dom; [done|]. by apply Hadm. }
  exists (set_tablets_ g s). unfold Flushed, mbind, M_bind, gets. simpl.
  by rewrite Hg.
Qed.

Lemma C10_flushed_check_holds_witness :
  ∃ s', Flushed [op_on "A" true; op_on "B" true] OK
          (after (become_ready ++
                  [(env0, EvPrepare [op_on "A" true; op_on "B" true] 2 blank)])
                 fresh)
        = Done () s' [].
Proof.
  apply (C10_flushed_check_holds
           (become_ready ++
            [(env0, EvPrepare [op_on "A" true; op_on "B" true] 2 blank)])
           fresh _
           (outputs (become_ready ++
              [(env0, EvPrepare [op_on "A" true; op_on "B" true] 2 blank)]) fresh)).
  - vm_compute. reflexivity.
  - intros op Hop. vm_compute. vm_compute in Hop. exact Hop.
Defined.

(** ** Child results *)

Lemma ApplyChildResult_parent result s :
  state_ s = kRunning → child_ s = false →
  ApplyChildResult result s =
    Done OK
      (set_read_point_ (ApplyChildTransactionResult (read_point_ s) result)
         (set_tablets_ (foldl merge_tablet (tablets_ s) (tablets result)) s))
      [].
Proof.
  intros Hstate Hchild.
  unfold ApplyChildResult, CheckRunning, mbind, M_bind, gets, modify.
  rewrite Hstate. simpl. by rewrite Hchild.
Qed.

Lemma ApplyChildResult_refused result s :
  state_ s ≠ kRunning ∨ child_ s = true →
  ∃ status, ApplyChildResult result s = Done status s [].
Proof.
  intros Hno.
  unfold ApplyChildResult, CheckRunning, mbind, M_bind, gets, modify.
  destruct (decide (state_ s ≠ kRunning)) as [Hne|Heq]; simpl.
  - destruct (ok (error_ s)) eqn:Herr; simpl; [eauto|]. rewrite Herr. simpl. eauto.
  - destruct Hno as [?|Hchild]; [done|]. rewrite Hchild. eauto.
Qed.

(** C9: applying a child result a second time changes neither the
    participant table nor the read point, and returns what the first
    application returned; the two merges it is made of are idempotent. *)
Theorem C9_apply_child_result_idempotent result s :
  ∃ status s1 out1 s2 out2,
    ApplyChildResult result s = Done status s1 out1 ∧
    ApplyChildResult result s1 = Done status s2 out2 ∧
    tablets_ s2 = tablets_ s1 ∧
    read_point_ s2 = read_point_ s1 ∧
    (∀ t source, MergeFromPB (MergeFromPB t source) source = MergeFromPB t source) ∧
    (∀ rp, ApplyChildTransactionResult (ApplyChildTransactionResult rp result) result
           = ApplyChildTransactionResult rp result).
Proof.
  assert (∀ t source,
            MergeFromPB (MergeFromPB t source) source = MergeFromPB t source)
    as Hmerge.
  { intros [p] [id q]. unfold MergeFromPB. simpl. by rewrite <-orb_assoc, orb_diag. }
  destruct (decide (state_ s = kRunning)) as [Hstate|Hstate];
    [destruct (child_ s) eqn:Hchild|].
  - destruct (ApplyChildResult_refused result s) as [status E]; [by right|].
    exists status, s, [], s, []. split_and!; try done.
    intros rp. apply read_point_merge_idemp.
  - eexists OK, _, [], _, []. split_and!.
    + by apply ApplyChildResult_parent.
    + by apply ApplyChildResult_parent.
    + simpl. apply merge_tablets_idemp.
    + simpl. apply read_point_merge_idemp.
    + done.
    + intros rp. apply read_point_merge_idemp.
  - destruct (ApplyChildResult_refused result s) as [status E]; [by left|].
    exists status, s, [], s, []. split_and!; try done.
    intros rp. apply read_point_merge_idemp.
Qed.

(** ** Commit *)

Lemma Commit_completed env callback s :
  state_ s ≠ kRunning → error_ s ≠ OK →
  Commit env callback s = Done () s [RunCommitCallback callback (error_ s)].
Proof.
  intros Hstate Herr.
  unfold Commit, CheckRunning, mbind, M_bind, gets, emit.
  destruct (decide (state_ s ≠ kRunning)); [|done]. simpl.
  destruct (error_ s); done.
Qed.

(** C7: [Commit] on a ready, running transaction that is not a child, needs
    no restart and has no participant sends an abort request to the status
    tablet [t] and then runs the commit callback with Ok; it sends no
    [UpdateTransaction]. *)
Theorem C7_commit_without_participants env callback s t :
  ready_ s = true → state_ s = kRunning → child_ s = false →
  IsRestartRequired (read_point_ s) = false → tablets_ s = ∅ →
  status_tablet_ s = Some t →
  Commit env callback s =
    Done () (set_commit_callback_ (Some callback) (set_state_ kCommitted s))
      [ AbortTransaction
          {| abort_tablet_id := tablet_id t;
             abort_propagated_hybrid_time := Now env;
             abort_transaction_id := transaction_id (metadata_ s) |};
        RunCommitCallback callback OK ].
Proof.
  intros Hready Hstate Hchild Hrestart Hempty Htablet.
  unfold Commit, CheckRunning, DoCommit, DoAbort, call_commit_callback_,
    deref_status_tablet_, mbind, M_bind, gets, modify, emit.
  rewrite Hstate. simpl. rewrite Hchild, Hrestart. simpl. rewrite Hready. simpl.
  rewrite Hempty. destruct (decide _) as [_|Hne]; [|done]. simpl.
  by rewrite Htablet.
Qed.

Lemma C7_commit_without_participants_witness :
  Commit env0 5 ready0 =
    Done () (set_commit_callback_ (Some 5) (set_state_ kCommitted ready0))
      [ AbortTransaction
          {| abort_tablet_id := "status";
             abort_propagated_hybrid_time := 100;
             abort_transaction_id := 7 |};
        RunCommitCallback 5 OK ].
Proof.
  apply (C7_commit_without_participants env0 5 ready0 {| tablet_id := "status" |});
    vm_compute; reflexivity.
Defined.

(** ** Reachable states *)

Lemma reachable_run history s s' out :
  reachable s → run history s = Done () s' out → reachable s'.
Proof.
  revert s out. induction history as [|[env ev] history IH]; intros s out Hs H.
  - apply ret_Done in H as (_&->&_). done.
  - unfold run in H. simpl in H.
    apply bind_Done in H as ([]&s1&out1&out2&Hstep&Hrest&->).
    eapply IH; [|done]. by eapply reachable_step.
Qed.

Lemma reachable_ready0 : reachable ready0.
Proof.
  apply (reachable_run become_ready fresh ready0 (outputs become_ready fresh)).
  - apply reachable_new.
  - vm_compute. reflexivity.
Qed.

(** ** Errors that end the transaction *)

Lemma SetError_first status s :
  error_ s = OK →
  SetError status s = Done () (set_state_ kAborted (set_error_ status s)) [].
Proof.
  intros Herr. unfold SetError, mbind, M_bind, gets, modify. by rewrite Herr.
Qed.

Lemma latched_after history s s' out :
  run history s = Done () s' out →
  state_ s = kAborted → error_ s ≠ OK →
  state_ s' = kAborted ∧ error_ s' = error_ s.
Proof.
  intros (Hs&He&_)%run_evolves Hstate Herr. unfold state_le in Hs.
  rewrite Hstate in Hs. split.
  - destruct Hs as [?|[?|[? ?]]]; congruence.
  - destruct He as [?|(?&_)]; congruence.
Qed.

(** C6: [Flushed] with a TryAgain status on a running transaction records
    that status in [error_] and moves [state_] to [kAborted]; whatever
    happens next, a [Commit] then runs its callback with that very status.
    [Flushed] with any other error changes nothing. *)
Theorem C6_try_again_is_latched ops status s :
  reachable s → state_ s = kRunning → IsTryAgain status = true →
  ∃ s', Flushed ops status s = Done () s' [] ∧
        error_ s' = status ∧
        state_ s' = kAborted ∧
        (∀ history s'' out env callback,
           run history s' = Done () s'' out →
           Commit env callback s'' =
             Done () s'' [RunCommitCallback callback status]) ∧
        (∀ other, ok other = false → IsTryAgain other = false →
                  Flushed ops other s = Done () s []).
Proof.
  intros Hreach Hstate Htry.
  assert (error_ s = OK) as Herr by (by apply reachable_error_free).
  assert (status ≠ OK) as Hne by (by destruct status).
  exists (set_state_ kAborted (set_error_ status s)). split_and!; try done.
  - unfold Flushed. rewrite Htry.
    replace (ok status) with false by (by destruct status).
    by apply SetError_first.
  - intros history s'' out env callback Hrun.
    destruct (latched_after _ _ _ _ Hrun) as [Hstate'' Herr'']; [done|done|].
    simpl in Herr''. rewrite <-Herr''. apply Commit_completed; congruence.
  - intros other Hok Hother. unfold Flushed. by rewrite Hok, Hother.
Qed.

Lemma C6_try_again_is_latched_witness :
  ∃ s', Flushed [op_on "A" false] (STATUS TryAgain "conflict") ready0
        = Done () s' [] ∧
        error_ s' = STATUS TryAgain "conflict" ∧
        state_ s' = kAborted ∧
        (∀ history s'' out env callback,
           run history s' = Done () s'' out →
           Commit env callback s'' =
             Done () s'' [RunCommitCallback callback (STATUS TryAgain "conflict")]) ∧
        (∀ other, ok other = false → IsTryAgain other = false →
                  Flushed [op_on "A" false] other ready0 = Done () ready0 []).
Proof.
  apply (C6_try_again_is_latched [op_on "A" false]
           (STATUS TryAgain "conflict") ready0).
  - exact reachable_ready0.
  - vm_compute. reflexivity.
  - vm_compute. reflexivity.
Defined.

(** ** Heartbeats *)

(** C8: a heartbeat completes with an error on a running transaction whose
    status tablet is [t].  With an Expired status the error is recorded, the
    state becomes [kAborted], and no heartbeat goes out, then or later.  With
    any other error the members are unchanged and [SendHeartbeat] runs at
    once with the same status: it sends the heartbeat again, except that for
    a status other than CREATED under
    [FLAGS_transaction_disable_heartbeat_in_tests] it sends nothing and
    schedules the next PENDING heartbeat. *)
Theorem C8_heartbeat_failure env status ht ts s t :
  reachable s → state_ s = kRunning → status_tablet_ s = Some t →
  ok status = false →
  (IsExpired status = true →
   ∃ s', HeartbeatDone env status ht ts s =
           Done () s' [UpdateClock ht; Unregister heartbeat_handle_;
                       LogWarning "Send heartbeat failed"] ∧
         error_ s' = status ∧
         state_ s' = kAborted ∧
         ∀ history s'' out,
           run history s' = Done () s'' out →
           Forall (λ a, is_heartbeat a = false) out) ∧
  (IsExpired status = false →
   HeartbeatDone env status ht ts s =
     Done () s
       ([UpdateClock ht; Unregister heartbeat_handle_;
         LogWarning "Send heartbeat failed"] ++
        if bool_decide (ts ≠ CREATED)
           && FLAGS_transaction_disable_heartbeat_in_tests env
        then [UpdateClock kInvalid; Unregister heartbeat_handle_;
              Schedule PENDING (FLAGS_transaction_heartbeat_usec env)]
        else [UpdateTransaction heartbeat_handle_
                {| req_tablet_id := tablet_id t;
                   req_propagated_hybrid_time := Now env;
                   req_transaction_id := transaction_id (metadata_ s);
                   req_status := ts;
                   req_tablets := [] |}])).
Proof.
  intros Hreach Hstate Htablet Hok.
  assert (error_ s = OK) as Herr by (by apply reachable_error_free).
  split; intros Hexp.
  - exists (set_state_ kAborted (set_error_ status s)). split_and!; try done.
    + unfold HeartbeatDone. rewrite Hok, Hexp.
      unfold mbind, M_bind, emit. simpl. by rewrite SetError_first.
    + intros history s'' out Hrun. by eapply run_no_heartbeat.
  - unfold HeartbeatDone, SendHeartbeat, HeartbeatDone_ok, deref_status_tablet_.
    rewrite Hok, Hexp. unfold mbind, M_bind, emit, gets. simpl.
    rewrite Hstate. simpl.
    destruct (bool_decide (ts ≠ CREATED)) eqn:Hts; simpl.
    + destruct (FLAGS_transaction_disable_heartbeat_in_tests env); simpl.
      * apply bool_decide_eq_true in Hts.
        destruct (decide (ts = CREATED)); done.
      * by rewrite Htablet.
    + by rewrite Htablet.
Qed.

Lemma C8_heartbeat_failure_witness :
  (IsExpired (STATUS Expired "transaction expired") = true →
   ∃ s', HeartbeatDone env0 (STATUS Expired "transaction expired") 102 PENDING ready0 =
           Done () s' [UpdateClock 102; Unregister heartbeat_handle_;
                       LogWarning "Send heartbeat failed"] ∧
         error_ s' = STATUS Expired "transaction expired" ∧
         state_ s' = kAborted ∧
         ∀ history s'' out,
           run history s' = Done () s'' out →
           Forall (λ a, is_heartbeat a = false) out) ∧
  (IsExpired (STATUS Expired "transaction expired") = false →
   HeartbeatDone env0 (STATUS Expired "transaction expired") 102 PENDING ready0 =
     Done () ready0
       ([UpdateClock 102; Unregister heartbeat_handle_;
         LogWarning "Send heartbeat failed"] ++
        if bool_decide (PENDING ≠ CREATED)
           && FLAGS_transaction_disable_heartbeat_in_tests env0
        then [UpdateClock kInvalid; Unregister heartbeat_handle_;
              Schedule PENDING (FLAGS_transaction_heartbeat_usec env0)]
        else [UpdateTransaction heartbeat_handle_
                {| req_tablet_id := tablet_id {| tablet_id := "status" |};
                   req_propagated_hybrid_time := Now env0;
                   req_transaction_id := transaction_id (metadata_ ready0);
                   req_status := PENDING;
                   req_tablets := [] |}])).
Proof.
  apply (C8_heartbeat_failure env0 (STATUS Expired "transaction expired") 102
           PENDING ready0 {| tablet_id := "status" |}).
  - exact reachable_ready0.
  - vm_compute. reflexivity.
  - vm_compute. reflexivity.
  - vm_compute. reflexivity.
Defined.

(** A PENDING heartbeat is on the wire when the test flag is switched on;
    its failure with a network error sends no heartbeat: the next one is
    scheduled. *)
Lemma C8_counterexample :
  ∃ out1,
    run (become_ready ++ [(env0, EvSendHeartbeat PENDING true)]) fresh
      = Done () ready0 out1 ∧
    last out1 = Some (UpdateTransaction heartbeat_handle_
                        {| req_tablet_id := "status";
                           req_propagated_hybrid_time := 100;
                           req_transaction_id := 7;
                           req_status := PENDING;
                           req_tablets := [] |}) ∧
    state_ ready0 = kRunning ∧
    IsExpired (STATUS NetworkError "connection reset") = false ∧
    HeartbeatDone env_test (STATUS NetworkError "connection reset") 102 PENDING
                  ready0
      = Done () ready0
          [ UpdateClock 102; Unregister heartbeat_handle_;
            LogWarning "Send heartbeat failed";
            UpdateClock kInvalid; Unregister heartbeat_handle_;
            Schedule PENDING 500000 ] ∧
    existsb is_heartbeat
      [ UpdateClock 102; Unregister heartbeat_handle_;
        LogWarning "Send heartbeat failed";
        UpdateClock kInvalid; Unregister heartbeat_handle_;
        Schedule PENDING 500000 ] = false.
Proof. eexists. split_and!; vm_compute; reflexivity. Qed.

(** ** The order of states *)

(** C2: over any history the state only moves forward in the order
    [kRunning], [kCommitted], [kAborted]: it never comes back to [kRunning]
    and never leaves [kAborted]; and it moves from [kCommitted] to [kAborted]
    only by the first error being recorded. *)
Theorem C2_state_moves_forward history s s' out :
  run history s = Done () s' out →
  state_le (state_ s) (state_ s') ∧
  (state_ s' = kRunning → state_ s = kRunning) ∧
  (state_ s = kAborted → state_ s' = kAborted) ∧
  (state_ s = kCommitted → state_ s' = kAborted →
   error_ s = OK ∧ error_ s' ≠ OK).
Proof.
  intros (Hs&_&Hc&_)%run_evolves. unfold state_le in *. split_and!; try done.
  - intros Hrun. rewrite Hrun in Hs. destruct Hs as [?|[?|[? ?]]]; congruence.
  - intros Hab. rewrite Hab in Hs. destruct Hs as [?|[?|[? ?]]]; congruence.
Qed.

Lemma C2_state_moves_forward_witness :
  state_le (state_ fresh) (state_ (after commit_then_pick_fails fresh)) ∧
  (state_ (after commit_then_pick_fails fresh) = kRunning →
   state_ fresh = kRunning) ∧
  (state_ fresh = kAborted →
   state_ (after commit_then_pick_fails fresh) = kAborted) ∧
  (state_ fresh = kCommitted →
   state_ (after commit_then_pick_fails fresh) = kAborted →
   error_ fresh = OK ∧ error_ (after commit_then_pick_fails fresh) ≠ OK).
Proof.
  apply (C2_state_moves_forward commit_then_pick_fails fresh
           (after commit_then_pick_fails fresh)
           (outputs commit_then_pick_fails fresh)).
  vm_compute. reflexivity.
Defined.

(** A commit asked for before the coordinator is ready moves the state to
    [kCommitted]; the failed pick of a status tablet then moves it to
    [kAborted]. *)
Lemma C2_counterexample :
  states commit_then_pick_fails fresh = [Some kCommitted; Some kAborted] ∧
  frozen_after_running (state_ fresh) (states commit_then_pick_fails fresh)
    = false.
Proof. split; vm_compute; reflexivity. Qed.

(** ** Waiters *)

Lemma run_batch_waiters env status ids s :
  for_each (run_waiter env status) (BatchWaiter <$> ids) s =
    Done () s (waiter_action status <$> ids).
Proof.
  induction ids as [|id ids IH]; [done|].
  rewrite !fmap_cons. cbn [for_each]. unfold mbind, M_bind.
  cbn [run_waiter emit]. by rewrite IH.
Qed.

(** When the CREATED heartbeat is acknowledged, the waiters of postponed
    batches are run with Ok, each once and in the order they were added, and
    [waiters_] is left empty. *)
Lemma created_heartbeat_runs_waiters env ht ids s :
  waiters_ s = BatchWaiter <$> ids →
  HeartbeatDone env OK ht CREATED s =
    Done () (set_waiters_ [] (set_ready_ true s))
      ([UpdateClock ht; Unregister heartbeat_handle_] ++
       (waiter_action OK <$> ids) ++
       [Schedule PENDING (FLAGS_transaction_heartbeat_usec env)]).
Proof.
  intros Hw. unfold HeartbeatDone, HeartbeatDone_ok. simpl.
  unfold mbind, M_bind, emit, gets, modify. simpl.
  by rewrite Hw, run_batch_waiters.
Qed.

(** The waiters of a postponed batch, a child request and a commit are run
    in that order. *)
Lemma three_waiters_in_order :
  waiters_ (after three_waiters fresh)
    = [BatchWaiter 1; BindDoPrepareChild 2; BindDoCommit] ∧
  ∃ s' data,
    HeartbeatDone env0 OK 101 CREATED (after three_waiters fresh)
      = Done () s'
          [ UpdateClock 101; Unregister heartbeat_handle_;
            RunWaiter 1 OK;
            RunPrepareChildCallback 2 (Success data);
            AbortTransaction
              {| abort_tablet_id := "status";
                 abort_propagated_hybrid_time := 100;
                 abort_transaction_id := 7 |};
            RunCommitCallback 3 OK;
            Schedule PENDING 500000 ] ∧
    waiters_ s' = [] ∧ ready_ s' = true.
Proof.
  split; [vm_compute; reflexivity|].
  do 2 eexists. split_and!; vm_compute; reflexivity.
Qed.

(** Before the coordinator is ready, [Commit], [Abort] and [PrepareChild]
    append their continuation to [waiters_] when they accept the call. *)
Lemma Commit_postponed env callback s :
  ready_ s = false → state_ s = kRunning → child_ s = false →
  IsRestartRequired (read_point_ s) = false →
  ∃ s' out, Commit env callback s = Done () s' out ∧
            waiters_ s' = waiters_ s ++ [BindDoCommit] ∧
            requested_status_tablet_ s' = true.
Proof.
  intros Hready Hstate Hchild Hrestart.
  unfold Commit, CheckRunning, RequestStatusTablet, mbind, M_bind, gets,
    modify, emit.
  rewrite Hstate. simpl. rewrite Hchild, Hrestart. simpl. rewrite Hready. simpl.
  destruct (requested_status_tablet_ s) eqn:Hreq; simpl; eauto.
Qed.

Lemma Abort_postponed env s :
  ready_ s = false → state_ s = kRunning → child_ s = false →
  ∃ s' out, Abort env s = Done () s' out ∧
            waiters_ s' = waiters_ s ++ [BindDoAbort] ∧
            requested_status_tablet_ s' = true.
Proof.
  intros Hready Hstate Hchild.
  unfold Abort, RequestStatusTablet, mbind, M_bind, gets, modify, emit.
  rewrite Hstate. simpl. rewrite Hchild. simpl. rewrite Hready. simpl.
  destruct (requested_status_tablet_ s) eqn:Hreq; simpl; eauto.
Qed.

Lemma PrepareChild_postponed callback s :
  ready_ s = false → state_ s = kRunning →
  IsRestartRequired (read_point_ s) = false →
  ∃ s' out, PrepareChild callback s = Done () s' out ∧
            waiters_ s' = waiters_ s ++ [BindDoPrepareChild callback] ∧
            requested_status_tablet_ s' = true.
Proof.
  intros Hready Hstate Hrestart.
  unfold PrepareChild, CheckRunning, RequestStatusTablet, mbind, M_bind, gets,
    modify, emit.
  rewrite Hstate. simpl. rewrite Hrestart. simpl. rewrite Hready. simpl.
  destruct (requested_status_tablet_ s) eqn:Hreq; simpl; eauto.
Qed.

(** A failed pick of the status tablet runs no waiter and leaves them all
    in [waiters_]. *)
Lemma failed_pick_runs_no_waiter code msg s :
  ∃ s', StatusTabletPicked (Failure code msg) s = Done () s' [] ∧
        waiters_ s' = waiters_ s ∧ ready_ s' = ready_ s.
Proof.
  unfold StatusTabletPicked, SetError, mbind, M_bind, gets, modify.
  destruct (ok (error_ s)); simpl; eauto.
Qed.

(** C1, on the code: a batch is postponed, so its waiter is in [waiters_];
    then picking a status tablet fails.  The error is recorded and the
    transaction aborted, but the waiter is not run: the only action of the
    history is the request to pick a status tablet, and the waiter is still
    in [waiters_], with [ready_] false. *)
Theorem C1_waiter_not_run_on_failure :
  run prepare_then_pick_fails fresh =
    Done () (after prepare_then_pick_fails fresh) [PickStatusTablet] ∧
  waiters_ (after prepare_then_pick_fails fresh) = [BatchWaiter 1] ∧
  ready_ (after prepare_then_pick_fails fresh) = false ∧
  state_ (after prepare_then_pick_fails fresh) = kAborted ∧
  error_ (after prepare_then_pick_fails fresh) = STATUS TimedOut "no status tablet".
Proof. split_and!; vm_compute; reflexivity. Qed.

(** ** Status tablet lookup *)

(** C3, on the code: [LookupTabletDone] does the same whatever its status.
    After a failed lookup that left the holder empty it dereferences a null
    [status_tablet_]; after one that left a tablet in the holder it goes on
    to send the CREATED heartbeat.  In neither case is the failure recorded
    or the transaction aborted. *)
Theorem C3_lookup_failure_not_recorded :
  (∀ env status, LookupTabletDone env status = LookupTabletDone env OK) ∧
  run (prepare_then_lookup_fails None) fresh
    = Crash (NullPointer "status_tablet_") ∧
  error_ (after (prepare_then_lookup_fails (Some {| tablet_id := "status" |})) fresh)
    = OK ∧
  state_ (after (prepare_then_lookup_fails (Some {| tablet_id := "status" |})) fresh)
    = kRunning ∧
  outputs (prepare_then_lookup_fails (Some {| tablet_id := "status" |})) fresh
    = [ PickStatusTablet; LookupTabletById "status";
        UpdateTransaction heartbeat_handle_
          {| req_tablet_id := "status"; req_propagated_hybrid_time := 100;
             req_transaction_id := 7; req_status := CREATED;
             req_tablets := [] |} ].
Proof. split_and!; [done|vm_compute; reflexivity..]. Qed.

(** ** More on what a call can change and send *)

Lemma run_waiters_no_pick env status ws s u s' out :
  for_each (run_waiter env status) ws s = Done u s' out →
  Forall (λ a, is_pick a = false) out.
Proof.
  revert s out. induction ws as [|w ws IH]; simpl; intros s out H.
  - undo. constructor.
  - apply bind_Done in H as (?&s1&out1&out2&Hw&Hws&->).
    apply Forall_app. split; [|by eapply IH].
    destruct w; simpl in Hw;
      unfold DoCommit, DoAbort, DoPrepareChild, call_commit_callback_,
        deref_status_tablet_ in Hw;
      undo; simpl; by repeat constructor.
Qed.

(** Taking a run apart, keeping both facts about the waiters' actions. *)
Ltac undo_calls :=
  repeat (first
    [ match goal with
      | H : for_each (run_waiter _ _) _ _ = Done _ _ _ |- _ =>
          let Hp := fresh "Hnopick" in
          pose proof (run_waiters_no_pick _ _ _ _ _ _ _ H) as Hp;
          apply run_waiters_Done in H; destruct H as (?&?)
      end
    | undo1 ]; subst; simpl in * ).

Lemma picks_app out1 out2 : picks (out1 ++ out2) = picks out1 + picks out2.
Proof. unfold picks. by rewrite List.filter_app, length_app. Qed.

Lemma picks_none out : Forall (λ a, is_pick a = false) out → picks out = 0.
Proof.
  unfold picks. induction 1 as [|a out Ha _ IH]; simpl; [done|].
  by rewrite Ha.
Qed.

Lemma heartbeats_app out1 out2 :
  heartbeats (out1 ++ out2) = heartbeats out1 + heartbeats out2.
Proof. unfold heartbeats. by rewrite List.filter_app, length_app. Qed.

Global Instance keeps_preorder : PreOrder keeps.
Proof.
  split.
  - intros s. by unfold keeps.
  - intros s1 s2 s3 (?&?&?&?&?&?) (?&?&?&?&?&?). unfold keeps.
    split_and!; [congruence..|auto|auto].
Qed.

Lemma step_keeps env ev s s' out :
  step env ev s = Done () s' out → keeps s s'.
Proof.
  intros H. destruct ev; unfold_members H; undo_all; try reflexivity;
    unfold keeps; simpl; split_and!; done.
Qed.

Lemma run_keeps history s s' out :
  run history s = Done () s' out → keeps s s'.
Proof.
  revert s out. induction history as [|call history IH]; intros s out H.
  - apply ret_Done in H as (_&->&_). reflexivity.
  - unfold run in H. simpl in H.
    apply bind_Done in H as ([]&s1&out1&out2&Hstep&Hrest&->).
    etrans; [by eapply step_keeps|by eapply IH].
Qed.

Lemma step_settled env ev s s' out :
  step env ev s = Done () s' out → settled s → settled s'.
Proof.
  intros H (Hw&He&Ht). destruct ev; unfold_members H; undo_all;
    repeat match goal with H : decide _ = _ |- _ => clear H end; decided;
    unfold settled; simpl; split_and!;
    first [ done | congruence | exact Ht | exact He
          | by (intros; simplify_eq)
          | by (intros; apply Hw; congruence)
          | by (intros Hne; specialize (He Hne); congruence)
          | by (intros t E; apply Ht; congruence)
          | by (intros Hne; apply He; congruence) ].
Qed.

Lemma reachable_settled s : reachable s → settled s.
Proof.
  induction 1 as [| |env ev s s' out _ IH Hstep].
  - unfold settled. simpl. split_and!; done.
  - unfold settled. simpl. split_and!; done.
  - by eapply step_settled.
Qed.

Lemma step_picks env ev s s' out :
  step env ev s = Done () s' out →
  picks out ≤ 1 ∧
  (requested_status_tablet_ s = true → picks out = 0) ∧
  (picks out = 1 → requested_status_tablet_ s' = true).
Proof.
  intros H. destruct ev; unfold_members H; undo_calls; decided;
    unfold picks; simpl; rewrite ?List.filter_app, ?length_app;
    repeat match goal with
    | Hx : Forall (λ a, is_pick a = false) ?x |- _ =>
        let Hz := fresh in
        pose proof (picks_none x Hx) as Hz; unfold picks in Hz; rewrite Hz;
        clear Hx Hz
    end;
    simpl; split_and!; first [done | lia | congruence].
Qed.

Lemma run_requested_no_pick history s s' out :
  run history s = Done () s' out →
  requested_status_tablet_ s = true → picks out = 0.
Proof.
  revert s out. induction history as [|call history IH]; intros s out H Hreq.
  - apply ret_Done in H as (_&_&->). done.
  - unfold run in H. simpl in H.
    apply bind_Done in H as ([]&s1&out1&out2&Hstep&Hrest&->).
    rewrite picks_app.
    destruct (step_picks _ _ _ _ _ Hstep) as (_&Hnone&_).
    destruct (step_keeps _ _ _ _ _ Hstep) as (_&_&_&_&_&Hkeep).
    rewrite (Hnone Hreq), (IH _ _ Hrest (Hkeep Hreq)). done.
Qed.

(** ** Properties of whole histories *)

(** X1: over any history the manager is asked to pick a status tablet at
    most once, however many calls ask for it, and not at all when it had
    been asked before the history began. *)
Theorem status_tablet_picked_once history s s' out :
  run history s = Done () s' out →
  picks out ≤ 1 ∧ (requested_status_tablet_ s = true → picks out = 0).
Proof.
  intros H. split; [|by eapply run_requested_no_pick].
  revert s out H. induction history as [|call history IH]; intros s out H.
  - apply ret_Done in H as (_&_&->). unfold picks. simpl. lia.
  - unfold run in H. simpl in H.
    apply bind_Done in H as ([]&s1&out1&out2&Hstep&Hrest&->).
    rewrite picks_app.
    destruct (step_picks _ _ _ _ _ Hstep) as (Hle&_&Hone).
    destruct (decide (picks out1 = 1)) as [H1|H1].
    + rewrite (run_requested_no_pick _ _ _ _ Hrest (Hone H1)). lia.
    + specialize (IH _ _ Hrest). lia.
Qed.

Lemma status_tablet_picked_once_witness :
  picks (outputs three_waiters fresh) ≤ 1 ∧
  (requested_status_tablet_ fresh = true → picks (outputs three_waiters fresh) = 0).
Proof.
  apply (status_tablet_picked_once three_waiters fresh
           (after three_waiters fresh) (outputs three_waiters fresh)).
  vm_compute. reflexivity.
Defined.

(** X2: the identity of a transaction never changes: over any history
    [metadata_] keeps its transaction id, isolation level, priority and
    start time, [child_] stays what it was, and [ready_] and
    [requested_status_tablet_], once true, stay true. *)
Theorem identity_is_stable history s s' out :
  run history s = Done () s' out →
  transaction_id (metadata_ s') = transaction_id (metadata_ s) ∧
  isolation (metadata_ s') = isolation (metadata_ s) ∧
  priority (metadata_ s') = priority (metadata_ s) ∧
  start_time (metadata_ s') = start_time (metadata_ s) ∧
  child_ s' = child_ s ∧
  (ready_ s = true → ready_ s' = true) ∧
  (requested_status_tablet_ s = true → requested_status_tablet_ s' = true).
Proof.
  intros H. destruct (run_keeps _ _ _ _ H) as (?&?&?&?&?&?).
  destruct (run_evolves _ _ _ _ H) as (_&_&_&_&?). by split_and!.
Qed.

Lemma identity_is_stable_witness :
  transaction_id (metadata_ ready0) = transaction_id (metadata_ fresh) ∧
  isolation (metadata_ ready0) = isolation (metadata_ fresh) ∧
  priority (metadata_ ready0) = priority (metadata_ fresh) ∧
  start_time (metadata_ ready0) = start_time (metadata_ fresh) ∧
  child_ ready0 = child_ fresh ∧
  (ready_ fresh = true → ready_ ready0 = true) ∧
  (requested_status_tablet_ fresh = true →
   requested_status_tablet_ ready0 = true).
Proof.
  apply (identity_is_stable become_ready fresh ready0
           (outputs become_ready fresh)).
  vm_compute. reflexivity.
Defined.

(** X3: [ready_] becomes true in one way only: by the acknowledgement of
    the CREATED heartbeat. *)
Theorem ready_only_by_created_heartbeat env ev s s' out :
  step env ev s = Done () s' out →
  ready_ s = false → ready_ s' = true →
  ∃ ht, ev = EvHeartbeatDone OK ht CREATED.
Proof.
  intros H Hno Hyes. destruct ev; unfold_members H; undo_all; decided;
    try congruence.
  destruct status; [eauto|done].
Qed.

Lemma ready_only_by_created_heartbeat_witness :
  ∃ ht, EvHeartbeatDone OK 101 CREATED = EvHeartbeatDone OK ht CREATED.
Proof.
  apply (ready_only_by_created_heartbeat env0 (EvHeartbeatDone OK 101 CREATED)
           (after (take 3 become_ready) fresh) ready0
           (drop 3 (outputs become_ready fresh))).
  - vm_compute. reflexivity.
  - vm_compute. reflexivity.
  - vm_compute. reflexivity.
Defined.

(** ** Properties of reachable states *)

(** X4: once a coordinator is ready no waiter is left in [waiters_]. *)
Theorem ready_leaves_no_waiter s :
  reachable s → ready_ s = true → waiters_ s = [].
Proof. intros (Hw&_)%reachable_settled. exact Hw. Qed.

Lemma ready_leaves_no_waiter_witness : waiters_ ready0 = [].
Proof.
  apply (ready_leaves_no_waiter ready0).
  - exact reachable_ready0.
  - vm_compute. reflexivity.
Defined.

Lemma reachable_expired0 : reachable expired0.
Proof.
  apply (reachable_run
           (become_ready ++
            [(env0, EvHeartbeatDone (STATUS Expired "transaction expired") 102 PENDING)])
           fresh expired0
           (outputs
              (become_ready ++
               [(env0, EvHeartbeatDone (STATUS Expired "transaction expired") 102
                         PENDING)])
              fresh)); [apply reachable_new|].
  vm_compute. reflexivity.
Qed.


(** X5: an error is recorded only in an aborted transaction: whenever
    [error_] is not Ok, [state_] is [kAborted]. *)
Theorem recorded_error_means_aborted s :
  reachable s → error_ s ≠ OK → state_ s = kAborted.
Proof. intros (_&He&_)%reachable_settled. exact He. Qed.

Lemma recorded_error_means_aborted_witness : state_ expired0 = kAborted.
Proof.
  apply (recorded_error_means_aborted expired0).
  - exact reachable_expired0.
  - vm_compute. discriminate.
Defined.

(** X6: whenever the routing descriptor [status_tablet_] is set,
    [metadata_.status_tablet] is the id of that tablet. *)
Theorem metadata_names_status_tablet s t :
  reachable s → status_tablet_ s = Some t →
  status_tablet (metadata_ s) = tablet_id t.
Proof. intros (_&_&Ht)%reachable_settled. apply Ht. Qed.

Lemma metadata_names_status_tablet_witness :
  status_tablet (metadata_ ready0) = tablet_id {| tablet_id := "status" |}.
Proof.
  apply (metadata_names_status_tablet ready0 {| tablet_id := "status" |}).
  - exact reachable_ready0.
  - vm_compute. reflexivity.
Defined.

(** ** Calls on a transaction that has ended, or is not yet ready *)

(** Running a member function forwards, with what is known of the members. *)
Ltac forwards :=
  repeat (progress
    (unfold step, run, store_lookup_result, CreateRestartedTransaction, Prepare,
       Flushed, Commit, Abort, SetupRestart, PrepareChild, FinishChild,
       ApplyChildResult, CommitDone, AbortDone, LookupTabletDone,
       StatusTabletPicked, RequestStatusTablet, HeartbeatDone, SendHeartbeat,
       HeartbeatDone_ok, DoPrepareChild, DoCommit, DoAbort,
       call_commit_callback_, deref_status_tablet_, CheckRunning, SetError,
       mbind, M_bind, mret, M_ret, gets, modify, emit, crash;
     simpl;
     repeat match goal with
            | H : _ = _ |- _ => rewrite H
            end;
     simpl)).



(** X8: a [Commit] or an [Abort] that comes before anything has asked for
    the status tablet leaves [kRunning] at once, so when the tablet has been
    picked and looked up [LookupTabletDone] sends no CREATED heartbeat: the
    continuation stays in [waiters_], nothing reaches the status tablet, the
    commit callback is not run, and no later call sends a heartbeat. *)
Theorem call_before_ready_stalls env callback s id t status :
  ready_ s = false → state_ s = kRunning → child_ s = false →
  IsRestartRequired (read_point_ s) = false →
  requested_status_tablet_ s = false →
  (∃ s', run [ (env, EvCommit callback);
               (env, EvStatusTabletPicked (Success id));
               (env, EvLookupTabletDone (Some t) status) ] s
           = Done () s' [PickStatusTablet; LookupTabletById id] ∧
         state_ s' = kCommitted ∧ ready_ s' = false ∧
         waiters_ s' = waiters_ s ++ [BindDoCommit] ∧
         ∀ history s'' out,
           run history s' = Done () s'' out →
           Forall (λ a, is_heartbeat a = false) out) ∧
  (∃ s', run [ (env, EvAbort);
               (env, EvStatusTabletPicked (Success id));
               (env, EvLookupTabletDone (Some t) status) ] s
           = Done () s' [PickStatusTablet; LookupTabletById id] ∧
         state_ s' = kAborted ∧ ready_ s' = false ∧
         waiters_ s' = waiters_ s ++ [BindDoAbort] ∧
         ∀ history s'' out,
           run history s' = Done () s'' out →
           Forall (λ a, is_heartbeat a = false) out).
Proof.
  intros Hready Hstate Hchild Hrestart Hreq. split.
  - eexists. split_and!; [forwards; reflexivity|done|done|done|].
    intros history s'' out Hrun. by eapply run_no_heartbeat.
  - eexists. split_and!; [forwards; reflexivity|done|done|done|].
    intros history s'' out Hrun. by eapply run_no_heartbeat.
Qed.

Lemma call_before_ready_stalls_witness :
  (∃ s', run [ (env0, EvCommit 5);
               (env0, EvStatusTabletPicked (Success "status"));
               (env0, EvLookupTabletDone (Some {| tablet_id := "status" |}) OK) ]
             fresh
           = Done () s' [PickStatusTablet; LookupTabletById "status"] ∧
         state_ s' = kCommitted ∧ ready_ s' = false ∧
         waiters_ s' = waiters_ fresh ++ [BindDoCommit] ∧
         ∀ history s'' out,
           run history s' = Done () s'' out →
           Forall (λ a, is_heartbeat a = false) out) ∧
  (∃ s', run [ (env0, EvAbort);
               (env0, EvStatusTabletPicked (Success "status"));
               (env0, EvLookupTabletDone (Some {| tablet_id := "status" |}) OK) ]
             fresh
           = Done () s' [PickStatusTablet; LookupTabletById "status"] ∧
         state_ s' = kAborted ∧ ready_ s' = false ∧
         waiters_ s' = waiters_ fresh ++ [BindDoAbort] ∧
         ∀ history s'' out,
           run history s' = Done () s'' out →
           Forall (λ a, is_heartbeat a = false) out).
Proof.
  apply (call_before_ready_stalls env0 5 fresh "status"
           {| tablet_id := "status" |} OK); vm_compute; reflexivity.
Defined.

(** ** Commit with participants *)

Lemma tablet_ids_dom (m : gmap string TabletState) id :
  id ∈ tablet_ids m ↔ id ∈ dom m.
Proof.
  unfold tablet_ids. rewrite elem_of_dom, list_elem_of_fmap. split.
  - intros ([k v]&->&Hkv). apply elem_of_map_to_list in Hkv. eauto.
  - intros [v Hv]. exists (id, v). split; [done|]. by apply elem_of_map_to_list.
Qed.

(** X9: [Commit] on a ready, running transaction with participants sends
    one COMMITTED update to the status tablet that lists every key of
    [tablets_] exactly once, and keeps the callback; when the reply comes,
    [CommitDone] hands its status to the callback as it is, and the state
    stays [kCommitted] whatever that status. *)
Theorem commit_names_every_participant env callback s t :
  ready_ s = true → state_ s = kRunning → child_ s = false →
  IsRestartRequired (read_point_ s) = false → tablets_ s ≠ ∅ →
  status_tablet_ s = Some t →
  ∃ s', Commit env callback s =
          Done () s'
            [ UpdateTransaction commit_handle_
                {| req_tablet_id := tablet_id t;
                   req_propagated_hybrid_time := Now env;
                   req_transaction_id := transaction_id (metadata_ s);
                   req_status := COMMITTED;
                   req_tablets := tablet_ids (tablets_ s) |} ] ∧
        state_ s' = kCommitted ∧
        NoDup (tablet_ids (tablets_ s)) ∧
        (∀ id, id ∈ tablet_ids (tablets_ s) ↔ id ∈ dom (tablets_ s)) ∧
        (∀ status ht,
           CommitDone status ht s' =
             Done () s' [ UpdateClock ht; Unregister commit_handle_;
                          RunCommitCallback callback status ]).
Proof.
  intros Hready Hstate Hchild Hrestart Hne Htablet.
  exists (set_commit_callback_ (Some callback) (set_state_ kCommitted s)).
  split_and!.
  - forwards. destruct (decide (tablets_ s = ∅)); [done|]. forwards. done.
  - done.
  - apply NoDup_fst_map_to_list.
  - apply tablet_ids_dom.
  - intros status ht. forwards. done.
Qed.

Lemma commit_names_every_participant_witness :
  ∃ s', Commit env0 5 parent0 =
          Done () s'
            [ UpdateTransaction commit_handle_
                {| req_tablet_id := tablet_id {| tablet_id := "status" |};
                   req_propagated_hybrid_time := Now env0;
                   req_transaction_id := transaction_id (metadata_ parent0);
                   req_status := COMMITTED;
                   req_tablets := tablet_ids (tablets_ parent0) |} ] ∧
        state_ s' = kCommitted ∧
        NoDup (tablet_ids (tablets_ parent0)) ∧
        (∀ id, id ∈ tablet_ids (tablets_ parent0) ↔ id ∈ dom (tablets_ parent0)) ∧
        (∀ status ht,
           CommitDone status ht s' =
             Done () s' [ UpdateClock ht; Unregister commit_handle_;
                          RunCommitCallback 5 status ]).
Proof.
  apply (commit_names_every_participant env0 5 parent0 {| tablet_id := "status" |});
    try (vm_compute; reflexivity).
  vm_compute. discriminate.
Defined.

(** ** Child transactions, abort and restart *)

(** X10: a running child transaction can neither commit nor abort nor take
    in a child's result: [Commit] hands IllegalState to its callback,
    [Abort] only logs, [ApplyChildResult] returns IllegalState, and the
    members stay as they are; a running transaction that is not a child
    refuses [FinishChild] in the same way. *)
Theorem roles_are_checked env s :
  state_ s = kRunning →
  (child_ s = true →
   (∀ cb, Commit env cb s =
            Done () s
              [RunCommitCallback cb
                 (STATUS IllegalState "Commit of child transaction is not allowed")]) ∧
   Abort env s = Done () s [LogDFatal "Abort of child transaction"] ∧
   (∀ result, ApplyChildResult result s =
                Done (STATUS IllegalState "Apply child result of child transaction")
                     s [])) ∧
  (child_ s = false →
   FinishChild s =
     Done (Failure IllegalState "Finish child of non child transaction") s []).
Proof.
  intros Hstate. split; intros Hchild; [split_and!; intros|]; forwards; done.
Qed.

Lemma roles_are_checked_witness :
  (child_ child0 = true →
   (∀ cb, Commit env0 cb child0 =
            Done () child0
              [RunCommitCallback cb
                 (STATUS IllegalState "Commit of child transaction is not allowed")]) ∧
   Abort env0 child0 = Done () child0 [LogDFatal "Abort of child transaction"] ∧
   (∀ result, ApplyChildResult result child0 =
                Done (STATUS IllegalState "Apply child result of child transaction")
                     child0 [])) ∧
  (child_ child0 = false →
   FinishChild child0 =
     Done (Failure IllegalState "Finish child of non child transaction") child0 []).
Proof.
  apply (roles_are_checked env0 child0). vm_compute. reflexivity.
Defined.

(** X11: [Abort] on a ready, running transaction sends one abort request to
    the status tablet and moves to [kAborted]; a second [Abort] does nothing
    at all, and a [Commit] after it is refused with IllegalState.  [Abort]
    after an accepted [Commit] only logs: the state stays [kCommitted] and no
    abort request is sent. *)
Theorem abort_ends_the_transaction env s t :
  ready_ s = true → state_ s = kRunning → child_ s = false →
  IsRestartRequired (read_point_ s) = false →
  status_tablet_ s = Some t → error_ s = OK →
  (∃ s', Abort env s =
           Done () s'
             [ AbortTransaction
                 {| abort_tablet_id := tablet_id t;
                    abort_propagated_hybrid_time := Now env;
                    abort_transaction_id := transaction_id (metadata_ s) |} ] ∧
         state_ s' = kAborted ∧
         Abort env s' = Done () s' [] ∧
         (∀ cb, Commit env cb s' =
                  Done () s'
                    [RunCommitCallback cb
                       (STATUS IllegalState "Transaction already completed")])) ∧
  (∀ cb, ∃ s1 out1,
     Commit env cb s = Done () s1 out1 ∧
     Abort env s1 = Done () s1 [LogDFatal "Abort of committed transaction"] ∧
     state_ s1 = kCommitted).
Proof.
  intros Hready Hstate Hchild Hrestart Htablet Herr. split.
  - exists (set_state_ kAborted s). split_and!; intros; forwards; done.
  - intros cb.
    exists (set_commit_callback_ (Some cb) (set_state_ kCommitted s)).
    destruct (decide (tablets_ s = ∅)) as [Hempty|Hne] eqn:Hdec.
    + eexists. split_and!; [forwards; reflexivity|forwards; done|done].
    + eexists. split_and!; [forwards; reflexivity|forwards; done|done].
Qed.

Lemma abort_ends_the_transaction_witness :
  (∃ s', Abort env0 ready0 =
           Done () s'
             [ AbortTransaction
                 {| abort_tablet_id := tablet_id {| tablet_id := "status" |};
                    abort_propagated_hybrid_time := Now env0;
                    abort_transaction_id := transaction_id (metadata_ ready0) |} ] ∧
         state_ s' = kAborted ∧
         Abort env0 s' = Done () s' [] ∧
         (∀ cb, Commit env0 cb s' =
                  Done () s'
                    [RunCommitCallback cb
                       (STATUS IllegalState "Transaction already completed")])) ∧
  (∀ cb, ∃ s1 out1,
     Commit env0 cb ready0 = Done () s1 out1 ∧
     Abort env0 s1 = Done () s1 [LogDFatal "Abort of committed transaction"] ∧
     state_ s1 = kCommitted).
Proof.
  apply (abort_ends_the_transaction env0 ready0 {| tablet_id := "status" |});
    vm_compute; reflexivity.
Defined.

(** X12: a running transaction whose read point requires a restart refuses
    [Commit] and [PrepareChild] and stays running.  Restarting it gives a new
    transaction of the same isolation level, running and not ready, with no
    participants and with the old read point restarted; the old transaction
    sends an abort request, is [kAborted] and from then on refuses [Commit];
    restarting it again logs, sends nothing, and gives a new transaction
    with a read point of its own. *)
Theorem restart_replaces_the_transaction Restart env id random s t :
  state_ s = kRunning → child_ s = false →
  IsRestartRequired (read_point_ s) = true →
  status_tablet_ s = Some t → error_ s = OK →
  (∀ cb, Commit env cb s =
           Done () s
             [RunCommitCallback cb
                (STATUS IllegalState
                   "Commit of transaction that requires restart is not allowed")]) ∧
  (∀ cb, PrepareChild cb s =
           Done () s
             [RunPrepareChildCallback cb (Failure IllegalState "Restart required")]) ∧
  ∃ s' other,
    CreateRestartedTransaction Restart env id random s =
      Done other s'
        [ AbortTransaction
            {| abort_tablet_id := tablet_id t;
               abort_propagated_hybrid_time := Now env;
               abort_transaction_id := transaction_id (metadata_ s) |} ] ∧
    read_point_ other = Restart (read_point_ s) ∧
    isolation (metadata_ other) = isolation (metadata_ s) ∧
    transaction_id (metadata_ other) = id ∧
    state_ other = kRunning ∧ ready_ other = false ∧ child_ other = false ∧
    tablets_ other = ∅ ∧ waiters_ other = [] ∧
    state_ s' = kAborted ∧
    (∀ cb, Commit env cb s' =
             Done () s'
               [RunCommitCallback cb
                  (STATUS IllegalState "Transaction already completed")]) ∧
    (∀ id2 random2,
       CreateRestartedTransaction Restart env id2 random2 s' =
         Done (Impl_new env id2 random2 (isolation (metadata_ s))) s'
           [LogDFatal "Restart of completed transaction"]).
Proof.
  intros Hstate Hchild Hrestart Htablet Herr. split_and!.
  - intros cb. forwards. done.
  - intros cb. forwards. done.
  - exists (set_state_ kAborted s). eexists. split_and!.
    + forwards. reflexivity.
    + done.
    + simpl. unfold CreateMetadata. done.
    + done.
    + done.
    + done.
    + done.
    + done.
    + done.
    + done.
    + intros cb. forwards. done.
    + intros id2 random2. forwards. done.
Qed.

Lemma restart_replaces_the_transaction_witness :
  (∀ cb, Commit env0 cb restart0 =
           Done () restart0
             [RunCommitCallback cb
                (STATUS IllegalState
                   "Commit of transaction that requires restart is not allowed")]) ∧
  (∀ cb, PrepareChild cb restart0 =
           Done () restart0
             [RunPrepareChildCallback cb (Failure IllegalState "Restart required")]) ∧
  ∃ s' other,
    CreateRestartedTransaction restart_later env0 8 43 restart0 =
      Done other s'
        [ AbortTransaction
            {| abort_tablet_id := tablet_id {| tablet_id := "status" |};
               abort_propagated_hybrid_time := Now env0;
               abort_transaction_id := transaction_id (metadata_ restart0) |} ] ∧
    read_point_ other = restart_later (read_point_ restart0) ∧
    isolation (metadata_ other) = isolation (metadata_ restart0) ∧
    transaction_id (metadata_ other) = 8%N ∧
    state_ other = kRunning ∧ ready_ other = false ∧ child_ other = false ∧
    tablets_ other = ∅ ∧ waiters_ other = [] ∧
    state_ s' = kAborted ∧
    (∀ cb, Commit env0 cb s' =
             Done () s'
               [RunCommitCallback cb
                  (STATUS IllegalState "Transaction already completed")]) ∧
    (∀ id2 random2,
       CreateRestartedTransaction restart_later env0 id2 random2 s' =
         Done (Impl_new env0 id2 random2 (isolation (metadata_ restart0))) s'
           [LogDFatal "Restart of completed transaction"]).
Proof.
  apply (restart_replaces_the_transaction restart_later env0 8 43 restart0
           {| tablet_id := "status" |}); vm_compute; reflexivity.
Defined.

(** ** A child's participants reach the parent *)

Lemma mentions_table (m : gmap string TabletState) id :
  mentions (map (λ kv, ToPB kv.1 kv.2) (map_to_list m)) id = true
  ↔ is_Some (m !! id).
Proof.
  unfold mentions. rewrite existsb_exists. split.
  - intros (pb&Hin&Hid%bool_decide_eq_true).
    apply in_map_iff in Hin as ([k v]&<-&Hkv). simpl in Hid. subst k.
    apply list_elem_of_In, elem_of_map_to_list in Hkv. eauto.
  - intros [v Hv]. exists (ToPB id v). split; [|by apply bool_decide_eq_true].
    apply in_map_iff. exists (id, v). split; [done|].
    apply list_elem_of_In. by apply elem_of_map_to_list.
Qed.

Lemma grants_table (m : gmap string TabletState) id :
  grants (map (λ kv, ToPB kv.1 kv.2) (map_to_list m)) id = true
  ↔ m !! id = Some {| has_parameters := true |}.
Proof.
  unfold grants. rewrite existsb_exists. split.
  - intros (pb&Hin&[Hid%bool_decide_eq_true Hp]%andb_prop).
    apply in_map_iff in Hin as ([k [p]]&<-&Hkv). simpl in *. subst k p.
    by apply list_elem_of_In, elem_of_map_to_list in Hkv.
  - intros Hv. exists (ToPB id {| has_parameters := true |}). split.
    + apply in_map_iff. exists (id, {| has_parameters := true |}).
      split; [done|]. apply list_elem_of_In. by apply elem_of_map_to_list.
    + simpl. by rewrite bool_decide_eq_true_2.
Qed.

Lemma merge_table_lookup (parent child : gmap string TabletState) id :
  foldl merge_tablet parent (map (λ kv, ToPB kv.1 kv.2) (map_to_list child)) !! id
  = merged_entry parent child id.
Proof.
  rewrite merge_tablets_lookup. unfold merged_entry.
  pose proof (mentions_table child id) as Hm.
  pose proof (grants_table child id) as Hg.
  destruct (child !! id) as [[p]|] eqn:Hc.
  - replace (mentions _ id) with true by (symmetry; apply Hm; eauto).
    do 3 f_equal. simpl. destruct p.
    + apply Hg. done.
    + destruct (grants _ id); [|done].
      destruct Hg as [Hg _]. specialize (Hg eq_refl). done.
  - destruct (mentions _ id); [|done].
    destruct Hm as [Hm _]. destruct (Hm eq_refl). done.
Qed.

(** X13: what a running child returns from [FinishChild], applied to a
    running parent by [ApplyChildResult], leaves the parent with every
    tablet of the child: a tablet of the child has the parameters in the
    parent exactly when it had them in the parent or in the child, and the
    other entries of the parent are as before.  The child is [kCommitted]
    afterwards, and a second [FinishChild] is refused. *)
Theorem child_participants_reach_parent parent child :
  state_ child = kRunning → child_ child = true → error_ child = OK →
  state_ parent = kRunning → child_ parent = false →
  ∃ result child' parent',
    FinishChild child = Done (Success result) child' [] ∧
    state_ child' = kCommitted ∧
    FinishChild child' =
      Done (Failure IllegalState "Transaction already completed") child' [] ∧
    ApplyChildResult result parent = Done OK parent' [] ∧
    state_ parent' = kRunning ∧
    (∀ id, tablets_ parent' !! id
           = merged_entry (tablets_ parent) (tablets_ child) id) ∧
    dom (tablets_ parent') = dom (tablets_ parent) ∪ dom (tablets_ child).
Proof.
  intros Hcs Hcc Hce Hps Hpc. do 3 eexists. split_and!.
  - forwards. reflexivity.
  - done.
  - forwards. done.
  - forwards. reflexivity.
  - done.
  - intros id. simpl. apply merge_table_lookup.
  - simpl. apply set_eq. intros id.
    rewrite elem_of_union, !elem_of_dom, merge_table_lookup.
    unfold merged_entry. destruct (tablets_ child !! id); [|naive_solver].
    split; [eauto|]. intros _. eauto.
Qed.

Lemma child_participants_reach_parent_witness :
  ∃ result child' parent',
    FinishChild child0 = Done (Success result) child' [] ∧
    state_ child' = kCommitted ∧
    FinishChild child' =
      Done (Failure IllegalState "Transaction already completed") child' [] ∧
    ApplyChildResult result parent0 = Done OK parent' [] ∧
    state_ parent' = kRunning ∧
    (∀ id, tablets_ parent' !! id
           = merged_entry (tablets_ parent0) (tablets_ child0) id) ∧
    dom (tablets_ parent') = dom (tablets_ parent0) ∪ dom (tablets_ child0).
Proof.
  apply (child_participants_reach_parent parent0 child0);
    vm_compute; reflexivity.
Defined.

(** ** Prepare and Flushed together *)

Lemma Flushed_loop_known ops (m m' : gmap string TabletState) :
  Flushed_loop None ops m = Some m' →
  ∀ op, op ∈ ops → succeeded (yb_op op) = true → op_tablet_id op ∈ dom m.
Proof.
  revert m. induction ops as [|op ops IH]; intros m H op' Hin Hs.
  - by apply elem_of_nil in Hin.
  - simpl in H. apply elem_of_cons in Hin as [->|Hin].
    + rewrite Hs in H. apply elem_of_dom.
      destruct (m !! op_tablet_id op); [eauto|done].
    + destruct (succeeded (yb_op op)); [|by eapply IH].
      destruct (m !! op_tablet_id op) eqn:Hop; [|done].
      specialize (IH _ H op' Hin Hs). rewrite dom_insert_L in IH.
      apply elem_of_union in IH as [Heq%elem_of_singleton|IH]; [|done].
      rewrite Heq. apply elem_of_dom. eauto.
Qed.

Lemma Flushed_loop_again ops (m : gmap string TabletState) :
  (∀ op, op ∈ ops → succeeded (yb_op op) = true →
         m !! op_tablet_id op = Some {| has_parameters := true |}) →
  Flushed_loop None ops m = Some m.
Proof.
  induction ops as [|op ops IH]; intros Hall; simpl; [done|].
  assert (Flushed_loop None ops m = Some m) as Hrest.
  { apply IH. intros op' Hin. apply Hall. by right. }
  destruct (succeeded (yb_op op)) eqn:Hs; [|done].
  rewrite (Hall op) by (done || by left).
  rewrite insert_id; [done|]. apply Hall; [by left|done].
Qed.

(** X14: [Flushed] with an Ok status returns exactly when every succeeded op
    of the batch goes to a tablet of [tablets_]; it then adds no tablet and
    removes none, and doing it again changes nothing.  If a succeeded op
    goes to a tablet that is not in [tablets_], the [CHECK] fails; ops that
    did not succeed are not looked at. *)
Theorem flushed_checks_participants ops s :
  ((∀ op, op ∈ ops → succeeded (yb_op op) = true →
          op_tablet_id op ∈ dom (tablets_ s)) →
   ∃ s', Flushed ops OK s = Done () s' [] ∧
         dom (tablets_ s') = dom (tablets_ s) ∧
         Flushed ops OK s' = Done () s' []) ∧
  (∀ op, op ∈ ops → succeeded (yb_op op) = true →
         op_tablet_id op ∉ dom (tablets_ s) →
         Flushed ops OK s = Crash (CheckFailed "it != tablets_.end()")).
Proof.
  split.
  - intros Hall. destruct (Flushed_loop_total ops (tablets_ s) Hall) as [g Hg].
    destruct (Flushed_loop_Some _ _ _ Hg) as (Hyes&_&Hdom).
    exists (set_tablets_ g s). split_and!.
    + unfold Flushed, mbind, M_bind, gets. simpl. by rewrite Hg.
    + done.
    + unfold Flushed, mbind, M_bind, gets. simpl.
      rewrite Flushed_loop_again; [done|].
      intros op Hin Hs. apply Hyes. by exists op.
  - intros op Hin Hs Hno. unfold Flushed, mbind, M_bind, gets. simpl.
    destruct (Flushed_loop None ops (tablets_ s)) as [g|] eqn:Hg; [|done].
    destruct Hno. by eapply Flushed_loop_known.
Qed.

Lemma Prepare_loop_perm ops ops' (m : gmap string TabletState) h :
  ops ≡ₚ ops' → Prepare_loop ops m h = Prepare_loop ops' m h.
Proof.
  intros Hperm.
  assert (needs_metadata m ops ↔ needs_metadata m ops') as Hneed.
  { unfold needs_metadata. split; intros (op&Hin&Hop); exists op;
      (split; [|done]); [by rewrite <-Hperm|by rewrite Hperm]. }
  pose proof (Prepare_loop_flag ops m h) as H1.
  pose proof (Prepare_loop_flag ops' m h) as H2.
  pose proof (Prepare_loop_lookup ops m h) as L1.
  pose proof (Prepare_loop_lookup ops' m h) as L2.
  destruct (Prepare_loop ops m h) as [g1 b1], (Prepare_loop ops' m h) as [g2 b2].
  simpl in *. f_equal.
  - apply map_eq. intros k. rewrite L1, L2. destruct (m !! k); [done|].
    erewrite bool_decide_ext; [done|]. by rewrite Hperm.
  - destruct b1, b2; try done; exfalso.
    + destruct (proj1 H1 eq_refl) as [Hh|Hn].
      * by pose proof (proj2 H2 (or_introl Hh)).
      * by pose proof (proj2 H2 (or_intror (proj1 Hneed Hn))).
    + destruct (proj1 H2 eq_refl) as [Hh|Hn].
      * by pose proof (proj2 H1 (or_introl Hh)).
      * by pose proof (proj2 H1 (or_intror (proj2 Hneed Hn))).
Qed.

(** X15: the order in which [Prepare] walks the set of ops does not matter:
    two walks of the same ops give the same return value, metadata slot,
    members and actions. *)
Theorem prepare_ignores_order ops ops' waiter metadata s :
  ops ≡ₚ ops' →
  Prepare ops waiter metadata s = Prepare ops' waiter metadata s.
Proof.
  intros Hperm. unfold Prepare, mbind, M_bind, gets. simpl.
  destruct (ready_ s); simpl; [|done].
  by rewrite (Prepare_loop_perm ops ops').
Qed.

Lemma prepare_ignores_order_witness :
  Prepare [op_on "A" false; op_on "B" true] (BatchWaiter 1) blank ready0
  = Prepare [op_on "B" true; op_on "A" false] (BatchWaiter 1) blank ready0.
Proof.
  apply (prepare_ignores_order [op_on "A" false; op_on "B" true]
           [op_on "B" true; op_on "A" false]).
  apply perm_swap.
Defined.

(** X16: [Prepare] on a ready coordinator leaves every entry of [tablets_]
    as it is and adds, for each new tablet of the ops, an entry with
    [has_parameters = false]: it never marks a tablet as informed. *)
Theorem prepare_only_adds ops waiter metadata s flag slot s' out :
  ready_ s = true →
  Prepare ops waiter metadata s = Done (flag, slot) s' out →
  ∀ id, tablets_ s' !! id =
          match tablets_ s !! id with
          | Some entry => Some entry
          | None =>
              if bool_decide (id ∈ op_tablet_id <$> ops)
              then Some {| has_parameters := false |}
              else None
          end.
Proof.
  intros Hready H id. rewrite Prepare_ready in H by done.
  injection H as _ _ <- _. simpl. apply Prepare_loop_lookup.
Qed.

Lemma prepare_only_adds_witness :
  tablets_ (set_tablets_ (<["C" := TabletState_new]> two_tablets) parent0) !! "C" =
    match tablets_ parent0 !! "C" with
    | Some entry => Some entry
    | None =>
        if bool_decide ("C" ∈ op_tablet_id <$> [op_on "A" true; op_on "C" true])
        then Some {| has_parameters := false |}
        else None
    end.
Proof.
  apply (prepare_only_adds [op_on "A" true; op_on "C" true] (BatchWaiter 1) blank
           parent0 true (metadata_ parent0)
           (set_tablets_ (<["C" := TabletState_new]> two_tablets) parent0) []).
  - vm_compute. reflexivity.
  - vm_compute. reflexivity.
Defined.

(** X17: after [Prepare] has admitted a batch and [Flushed] has reported it
    with an Ok status, a later [Prepare] whose ops all go to tablets on
    which an op of that batch succeeded fills only the transaction id into
    the metadata slot, and changes no entry. *)
Theorem informed_tablets_need_only_the_id ops ops' waiter metadata s :
  ready_ s = true →
  (∀ op', op' ∈ ops' → succeeded_on ops (op_tablet_id op')) →
  ∃ slot s1 s2,
    Prepare ops waiter metadata s = Done (true, slot) s1 [] ∧
    Flushed ops OK s1 = Done () s2 [] ∧
    ∀ waiter' metadata',
      Prepare ops' waiter' metadata' s2 =
        Done (true, with_transaction_id (transaction_id (metadata_ s)) metadata')
             s2 [].
Proof.
  intros Hready Hops'.
  destruct (Flushed_loop_total ops (Prepare_loop ops (tablets_ s) false).1)
    as [g Hg].
  { intros op Hin _. by apply Prepare_loop_covers. }
  destruct (Flushed_loop_Some _ _ _ Hg) as (Hyes&_&_).
  do 3 eexists. split_and!.
  - by apply Prepare_ready.
  - unfold Flushed, mbind, M_bind, gets. simpl. rewrite Hg. reflexivity.
  - intros waiter' metadata'. rewrite Prepare_ready by done. simpl.
    assert (¬ needs_metadata g ops') as Hno.
    { intros (op'&Hin&Hop'). rewrite (Hyes _ (Hops' _ Hin)) in Hop'.
      by destruct Hop'. }
    pose proof (Prepare_loop_flag ops' g false) as Hflag.
    pose proof (Prepare_loop_lookup ops' g false) as Hlook.
    destruct (Prepare_loop ops' g false) as [g' b]. simpl in *.
    assert (g' = g) as ->.
    { apply map_eq. intros k. rewrite Hlook.
      destruct (g !! k) eqn:Hk; [done|]. case_bool_decide as Hin; [|done].
      apply list_elem_of_fmap in Hin as (op'&->&Hin).
      by rewrite (Hyes _ (Hops' _ Hin)) in Hk. }
    destruct b; [|by destruct s].
    destruct Hflag as [Hflag _]. destruct (Hflag eq_refl); done.
Qed.

Lemma informed_tablets_need_only_the_id_witness :
  ∃ slot s1 s2,
    Prepare [op_on "A" true; op_on "B" false] (BatchWaiter 1) blank ready0
      = Done (true, slot) s1 [] ∧
    Flushed [op_on "A" true; op_on "B" false] OK s1 = Done () s2 [] ∧
    ∀ waiter' metadata',
      Prepare [op_on "A" false] waiter' metadata' s2 =
        Done (true, with_transaction_id (transaction_id (metadata_ ready0)) metadata')
             s2 [].
Proof.
  apply (informed_tablets_need_only_the_id [op_on "A" true; op_on "B" false]
           [op_on "A" false] (BatchWaiter 1) blank ready0).
  - vm_compute. reflexivity.
  - intros op' ->%list_elem_of_singleton. exists (op_on "A" true).
    split_and!; [by left|done|done].
Defined.

(** ** Heartbeats and resolution *)

Lemma HeartbeatDone_transient env status ht ts s t :
  state_ s = kRunning → status_tablet_ s = Some t →
  bool_decide (ts ≠ CREATED) && FLAGS_transaction_disable_heartbeat_in_tests env
    = false →
  ok status = false → IsExpired status = false →
  HeartbeatDone env status ht ts s =
    Done () s
      [ UpdateClock ht; Unregister heartbeat_handle_;
        LogWarning "Send heartbeat failed";
        UpdateTransaction heartbeat_handle_
          {| req_tablet_id := tablet_id t;
             req_propagated_hybrid_time := Now env;
             req_transaction_id := transaction_id (metadata_ s);
             req_status := ts;
             req_tablets := [] |} ].
Proof. intros Hstate Htablet Hflag Hok Hexp. forwards. done. Qed.

(** X18: heartbeat failures other than Expired are retried for as long as
    they come: after any number of them in a row the transaction is still
    running with its members unchanged, and one heartbeat with the same
    status has been sent again for each failure (for a status other than
    CREATED this is with the test flag off). *)
Theorem transient_heartbeat_failures_are_retried env ht ts errors s t :
  state_ s = kRunning → status_tablet_ s = Some t →
  bool_decide (ts ≠ CREATED) && FLAGS_transaction_disable_heartbeat_in_tests env
    = false →
  Forall (λ status, ok status = false ∧ IsExpired status = false) errors →
  ∃ out, run (heartbeat_failures env ht ts errors) s = Done () s out ∧
         heartbeats out = length errors ∧
         Forall (λ a, is_heartbeat a = true →
                      ∃ req, a = UpdateTransaction heartbeat_handle_ req ∧
                             req_status req = ts) out.
Proof.
  intros Hstate Htablet Hflag. induction 1 as [|status errors [Hok Hexp] _ IH].
  - exists []. split_and!; [done|done|constructor].
  - destruct IH as (out&Hrun&Hcount&Hall). eexists. split_and!.
    + unfold heartbeat_failures, run in *. rewrite fmap_cons. cbn [for_each].
      unfold mbind, M_bind. cbn [step fst snd].
      rewrite (HeartbeatDone_transient env status ht ts s t) by done.
      fold (@mbind M _). unfold mbind, M_bind in Hrun. rewrite Hrun. reflexivity.
    + rewrite heartbeats_app, Hcount. unfold heartbeats. simpl. done.
    + apply Forall_app. split; [|done].
      repeat constructor; simpl; try done. intros _. eauto.
Qed.

Lemma transient_heartbeat_failures_are_retried_witness :
  ∃ out, run (heartbeat_failures env0 102 PENDING
                [STATUS NetworkError "reset"; STATUS TimedOut "timed out";
                 STATUS ServiceUnavailable "busy"]) ready0
           = Done () ready0 out ∧
         heartbeats out =
           length [STATUS NetworkError "reset"; STATUS TimedOut "timed out";
                   STATUS ServiceUnavailable "busy"] ∧
         Forall (λ a, is_heartbeat a = true →
                      ∃ req, a = UpdateTransaction heartbeat_handle_ req ∧
                             req_status req = PENDING) out.
Proof.
  apply (transient_heartbeat_failures_are_retried env0 102 PENDING
           [STATUS NetworkError "reset"; STATUS TimedOut "timed out";
            STATUS ServiceUnavailable "busy"] ready0 {| tablet_id := "status" |}).
  - vm_compute. reflexivity.
  - vm_compute. reflexivity.
  - vm_compute. reflexivity.
  - repeat constructor.
Defined.

(** X19: when the status tablet of a running transaction has been picked
    and looked up, [status_tablet_] and [metadata_.status_tablet] are set
    and the CREATED heartbeat is sent, with or without the test flag; when
    that heartbeat is acknowledged the coordinator is ready, the waiters of
    the postponed batches have been run with Ok in the order they came, and
    the first PENDING heartbeat is scheduled. *)
Theorem resolution_makes_ready env id t status ht ids s :
  state_ s = kRunning → waiters_ s = BatchWaiter <$> ids →
  ∃ s',
    run [ (env, EvStatusTabletPicked (Success id));
          (env, EvLookupTabletDone (Some t) status);
          (env, EvHeartbeatDone OK ht CREATED) ] s
      = Done () s'
          ([ LookupTabletById id;
             UpdateTransaction heartbeat_handle_
               {| req_tablet_id := tablet_id t;
                  req_propagated_hybrid_time := Now env;
                  req_transaction_id := transaction_id (metadata_ s);
                  req_status := CREATED;
                  req_tablets := [] |};
             UpdateClock ht; Unregister heartbeat_handle_ ] ++
           (waiter_action OK <$> ids) ++
           [Schedule PENDING (FLAGS_transaction_heartbeat_usec env)]) ∧
    ready_ s' = true ∧ waiters_ s' = [] ∧ state_ s' = kRunning ∧
    status_tablet_ s' = Some t ∧
    status_tablet (metadata_ s') = tablet_id t.
Proof.
  intros Hstate Hw. eexists. split_and!.
  - forwards. rewrite run_batch_waiters. simpl.
    rewrite ?app_nil_r, <-?app_assoc. reflexivity.
  - done.
  - done.
  - done.
  - done.
  - done.
Qed.

Lemma resolution_makes_ready_witness :
  ∃ s',
    run [ (env_test, EvStatusTabletPicked (Success "status"));
          (env_test, EvLookupTabletDone (Some {| tablet_id := "status" |}) OK);
          (env_test, EvHeartbeatDone OK 101 CREATED) ]
        (after (take 1 become_ready) fresh)
      = Done () s'
          ([ LookupTabletById "status";
             UpdateTransaction heartbeat_handle_
               {| req_tablet_id := tablet_id {| tablet_id := "status" |};
                  req_propagated_hybrid_time := Now env_test;
                  req_transaction_id :=
                    transaction_id (metadata_ (after (take 1 become_ready) fresh));
                  req_status := CREATED;
                  req_tablets := [] |};
             UpdateClock 101; Unregister heartbeat_handle_ ] ++
           (waiter_action OK <$> [1]) ++
           [Schedule PENDING (FLAGS_transaction_heartbeat_usec env_test)]) ∧
    ready_ s' = true ∧ waiters_ s' = [] ∧ state_ s' = kRunning ∧
    status_tablet_ s' = Some {| tablet_id := "status" |} ∧
    status_tablet (metadata_ s') = tablet_id {| tablet_id := "status" |}.
Proof.
  apply (resolution_makes_ready env_test "status" {| tablet_id := "status" |} OK
           101 [1] (after (take 1 become_ready) fresh));
    vm_compute; reflexivity.
Defined.
